(** * LDB console commands (src/command.c): a shallow embedding

    The console layer of LDB turns one normalised command line into calls
    of the storage engine.  This development embeds the functions of
    command.c as Rocq functions and proves what the specification says
    about them.

    - C strings are lists of character values ([Z]); the terminating NUL is
      implicit after the last element, and [strlen] stops at the first 0.
    - [int] and [long] are [Z]; the unsigned casts of [ldb_command_insert]
      have their wrap-around written out.
    - Calls that leave command.c ([ldb_lock], [ldb_collate],
      [ldb_node_write], [printf], ...) are recorded, in order, in a trace.
    - An access outside a string or an allocated block has no defined
      result; a run then ends in [Undefined]. *)

From Stdlib Require Import String Ascii.
From Stdlib Require Import ZArith List Bool Lia Permutation Sorted.
Import ListNotations.
Local Open Scope Z_scope.

(** * Definitions *)

(** ** Characters and C strings

    A character is its value as a C [char], signed or unsigned as the
    platform has it; command.c only compares characters with ASCII
    constants. *)

Definition cstring := list Z.

Definition SPACE : Z := 32.   (* ' ' *)
Definition COMMA : Z := 44.   (* ',' *)

(** [strlen]: the number of characters before the first NUL. *)
Fixpoint strlen_nat (s : cstring) : nat :=
  match s with
  | [] => 0%nat
  | c :: r => if c =? 0 then 0%nat else S (strlen_nat r)
  end.

Definition strlen (s : cstring) : Z := Z.of_nat (strlen_nat s).

(** The characters of a C string, terminator excluded. *)
Definition chars (s : cstring) : list Z := firstn (strlen_nat s) s.

(** A string literal as a C string, for concrete runs. *)
Fixpoint cstr (s : string) : cstring :=
  match s with
  | EmptyString => []
  | String a r => Z.of_nat (nat_of_ascii a) :: cstr r
  end.

(** ** ldb_command_normalize (command.c:52) *)

(** One iteration of the [for] loop; [tmp] is the filled part
    [tmp[0..tmpln)] of the output buffer. *)
Definition normalize_step (tmp : list Z) (c : Z) : list Z :=
  if c >? SPACE then tmp ++ [c]
  else if c <=? SPACE then
    if negb (Nat.eqb (length tmp) 0) then
      if negb (last tmp 0 =? SPACE) then tmp ++ [SPACE] else tmp
    else tmp
  else tmp.

Definition right_trim (tmp : list Z) : list Z :=
  if negb (Nat.eqb (length tmp) 0) then
    if last tmp 0 =? SPACE then removelast tmp else tmp
  else tmp.

Definition ldb_command_normalize (text : cstring) : cstring :=
  let strln := strlen_nat text in
  let tmp := fold_left normalize_step (firstn strln text) [] in
  right_trim tmp.

(** *** The normal form, in the words of the specification

    A blank is a character of value <= ' '.  The words of a text are its
    maximal runs of non-blank characters; the normal form joins them with
    single spaces. *)

Definition blank (c : Z) : bool := c <=? SPACE.

Fixpoint split_words (cur : list Z) (s : list Z) : list (list Z) :=
  match s with
  | [] => match cur with [] => [] | _ => [cur] end
  | c :: r =>
      if blank c
      then match cur with [] => split_words [] r | _ => cur :: split_words [] r end
      else split_words (cur ++ [c]) r
  end.

Fixpoint join_words (ws : list (list Z)) : list Z :=
  match ws with
  | [] => []
  | w :: rest =>
      match rest with
      | [] => w
      | _ => w ++ SPACE :: join_words rest
      end
  end.

Definition spec_normalize (text : cstring) : list Z :=
  join_words (split_words [] (chars text)).

(** No two neighbouring spaces. *)
Fixpoint single_spaced (s : list Z) : bool :=
  match s with
  | a :: (b :: _) as r => negb ((a =? SPACE) && (b =? SPACE)) && single_spaced r
  | _ => true
  end.

(** *** The loop, seen from its input

    What the loop appends to the buffer; [sup] tells that a blank must
    not produce a space (buffer empty, or a space was just written). *)
Fixpoint appended (sup : bool) (s : list Z) : list Z :=
  match s with
  | [] => []
  | c :: r => if c >? SPACE then c :: appended false r
              else if sup then appended true r else SPACE :: appended true r
  end.

Definition suppress (tmp : list Z) : bool :=
  Nat.eqb (length tmp) 0 || (last tmp 0 =? SPACE).

Definition nonblank (c : Z) : Prop := c > SPACE.
Definition word (w : list Z) : Prop := w <> [] /\ Forall nonblank w.

(** ** Outcomes of a run *)

(** [Undefined]: an access outside a string (with its terminator) or outside
    an allocated block, or a division by zero; C gives it no meaning.
    [Diverges]: a loop that did not finish within its fuel. *)
Inductive result (A : Type) : Type :=
| Ok (a : A)
| Undefined
| Diverges.
Arguments Ok {A} a.
Arguments Undefined {A}.
Arguments Diverges {A}.

(** ** Tables, messages and engine calls *)

(** Modelled from the spec: [struct ldb_table] is declared in ldb.h, which is
    not among the sources.  Spec section 3: a table is identified by
    database/table and carries key_length, record_length and is_temporary;
    command.c reads and assigns the fields [key_ln], [rec_ln] and [tmp]. *)
Record ldb_table : Type := mk_table {
  table_name : cstring;
  key_ln : Z;
  rec_ln : Z;
  tmp : bool
}.

Definition set_tmp (b : bool) (t : ldb_table) : ldb_table :=
  mk_table (table_name t) (key_ln t) (rec_ln t) b.
Definition set_key_ln (k : Z) (t : ldb_table) : ldb_table :=
  mk_table (table_name t) k (rec_ln t) (tmp t).

(** Modelled from the spec: [LDB_KEY_LN] is a macro of ldb.h.  Spec section 3:
    a short key is exactly 4 bytes; command.c agrees ("32 bits", 8 hex
    digits, [key_ln == 4]). *)
Definition LDB_KEY_LN : Z := 4.

(** [select_format] and the [commandtype] values that shell.c dispatches on. *)
Inductive select_format : Type := HEX | ASCII | CSV.

Inductive commandtype : Type :=
| HELP | SHOW_TABLES | SHOW_DATABASES | INSERT_ASCII | INSERT_HEX
| SELECT | SELECT_ASCII | SELECT_CSV | CREATE_DATABASE | CREATE_TABLE
| UNLINK_LIST | COLLATE | DELETE | MERGE | DUMP_KEYS | CAT_MZ | VERSION
| DUMP | DUMP_SECTOR.

Definition is_insert_hex (t : commandtype) : bool :=
  match t with INSERT_HEX => true | _ => false end.

(** The lines command.c prints, one constructor per format string. *)
Inductive message : Type :=
| E071_key_too_short            (* E071 Key length cannot be less than 32 bits *)
| E073_key_length_invalid       (* E073 Provided key length is invalid *)
| E075_key_not_32_bits          (* E075 Key length must be 32 bits *)
| E076_keys (key_ln : Z)        (* E076 Keys should contain (%d) bytes and have the first byte in common *)
| E076_fixed_length (rec_ln : Z)(* E076 Max record length should equal fixed record length (%d) *)
| E076_max_below_key            (* E076 Max record length cannot be smaller than table key *)
| E076_merge_key_length         (* E076 Merge requires tables with equal key length *)
| E076_merge_record_type        (* E076 Merge requires tables with equal record types *)
| Removing_keys (n : Z).        (* Removing %ld keys *)

(** Record handlers handed to [ldb_fetch_recordset], with their argument. *)
Inductive record_handler : Type :=
| ldb_hexprint_width (width : Z)
| ldb_asciiprint
| ldb_csvprint (hex_bytes : Z).

(** Calls that leave command.c, in the order they happen. *)
Inductive event : Type :=
| EvPrintf (m : message)
| EvLock (dbtable : cstring)
| EvUnlock (dbtable : cstring)
| EvReadCfg (dbtable : cstring)
| EvQsort (nmemb size : Z)
| EvCollate (table out_table : ldb_table) (max_rec_ln : Z) (erase : bool)
            (del_keys : option (list Z)) (del_ln : Z)
| EvOpen (table : ldb_table) (key : list Z)
| EvNodeWrite (table : ldb_table) (key data : list Z) (dln records : Z)
| EvListUnlink (key : list Z)
| EvFclose
| EvFetchRecordset (table : ldb_table) (key : list Z) (skip_subkey : bool)
                   (handler : record_handler).

Definition trace := list event.

(** ** The console monad: a trace that grows, and undefined behaviour *)

Definition console (A : Type) : Type := trace -> result (A * trace).

Definition ret {A} (a : A) : console A := fun tr => Ok (a, tr).

Definition bind {A B} (m : console A) (k : A -> console B) : console B :=
  fun tr =>
    match m tr with
    | Ok (a, tr') => k a tr'
    | Undefined => Undefined
    | Diverges => Diverges
    end.

Definition emit (e : event) : console unit := fun tr => Ok (tt, tr ++ [e]).

Definition lift {A} (r : result A) : console A :=
  fun tr =>
    match r with
    | Ok a => Ok (a, tr)
    | Undefined => Undefined
    | Diverges => Diverges
    end.

Definition run {A} (m : console A) : result trace :=
  match m [] with
  | Ok (_, tr) => Ok tr
  | Undefined => Undefined
  | Diverges => Diverges
  end.

Declare Scope console_scope.
Delimit Scope console_scope with console.
Notation "x <- m ;; k" := (bind m (fun x => k))
  (at level 61, m at next level, right associativity) : console_scope.
Notation "m ;; k" := (bind m (fun _ => k))
  (at level 61, right associativity) : console_scope.
Local Open Scope console_scope.

(** Predicates on traces. *)
Definition is_collate (e : event) : bool :=
  match e with EvCollate _ _ _ _ _ _ => true | _ => false end.
Definition is_fetch (e : event) : bool :=
  match e with EvFetchRecordset _ _ _ _ => true | _ => false end.
Definition is_node_write (e : event) : bool :=
  match e with EvNodeWrite _ _ _ _ _ => true | _ => false end.
Definition is_lock (e : event) : bool :=
  match e with EvLock _ => true | _ => false end.

Definition invokes_collate (tr : trace) : bool := existsb is_collate tr.
Definition fetches (tr : trace) : bool := existsb is_fetch tr.
Definition writes_record (tr : trace) : bool := existsb is_node_write tr.

Definition length_mismatch (m : message) : bool :=
  match m with E076_fixed_length _ | E076_max_below_key => true | _ => false end.
Definition invalid_keys (m : message) : bool :=
  match m with E076_keys _ => true | _ => false end.
Definition incompatible_tables (m : message) : bool :=
  match m with E076_merge_key_length | E076_merge_record_type => true | _ => false end.
Definition is_E076 (m : message) : bool :=
  length_mismatch m || invalid_keys m || incompatible_tables m.

Definition prints (p : message -> bool) (tr : trace) : bool :=
  existsb (fun e => match e with EvPrintf m => p m | _ => false end) tr.

(** Both pre-flight checks on [max]: equal to a fixed record length, and
    not below the key length. *)
Definition length_checks_pass (t : ldb_table) (max : Z) : bool :=
  negb (negb (rec_ln t =? 0) && negb (rec_ln t =? max))
  && negb (max <? key_ln t).

Definition is_unlock (e : event) : bool :=
  match e with EvUnlock _ => true | _ => false end.
Definition lock_free (tr : trace) : bool :=
  forallb (fun e => negb (is_lock e) && negb (is_unlock e)) tr.
Definition is_E071 (m : message) : bool :=
  match m with E071_key_too_short => true | _ => false end.
Definition is_E073 (m : message) : bool :=
  match m with E073_key_length_invalid => true | _ => false end.
Definition any_message (m : message) : bool := true.

(** Events that read or write a table's files. *)
Definition touches_table (e : event) : bool :=
  match e with
  | EvReadCfg _ | EvCollate _ _ _ _ _ _ | EvOpen _ _ | EvNodeWrite _ _ _ _ _
  | EvListUnlink _ | EvFclose => true
  | _ => false
  end.

(** The table is only touched between an [ldb_lock] and the next
    [ldb_unlock]. *)
Fixpoint lock_discipline (held : bool) (tr : trace) : bool :=
  match tr with
  | [] => true
  | EvLock _ :: r => lock_discipline true r
  | EvUnlock _ :: r => lock_discipline false r
  | e :: r => (negb (touches_table e) || held) && lock_discipline held r
  end.

(** Errors without a trace: the [result] monad. *)
Definition rbind {A B} (r : result A) (k : A -> result B) : result B :=
  match r with
  | Ok a => k a
  | Undefined => Undefined
  | Diverges => Diverges
  end.

Declare Scope result_scope.
Delimit Scope result_scope with result.
Notation "x <- m ;; k" := (rbind m (fun x => k))
  (at level 61, m at next level, right associativity) : result_scope.

Definition guard (b : bool) : result unit := if b then Ok tt else Undefined.

(** ** Memory: strings and byte blocks *)

Definition len (l : list Z) : Z := Z.of_nat (length l).

(** [s[i]]: the characters, then the terminator; nothing beyond it. *)
Definition char_at (s : cstring) (i : Z) : result Z :=
  if (0 <=? i) && (i <=? strlen s)
  then Ok (nth (Z.to_nat i) (chars s) 0)
  else Undefined.

(** The string a pointer [s + i] designates. *)
Definition advance (s : cstring) (i : Z) : cstring := skipn (Z.to_nat i) (chars s).

Definition calloc (n : Z) : list Z := repeat 0 (Z.to_nat n).

Definition load (blob : list Z) (i : Z) : result Z :=
  if (0 <=? i) && (i <? len blob) then Ok (nth (Z.to_nat i) blob 0) else Undefined.

Definition store (blob : list Z) (off : Z) (bytes : list Z) : result (list Z) :=
  if (0 <=? off) && (off + len bytes <=? len blob)
  then Ok (firstn (Z.to_nat off) blob ++ bytes
           ++ skipn (Z.to_nat (off + len bytes)) blob)
  else Undefined.

(** C integer division: truncating, undefined for a zero divisor. *)
Definition c_div (a b : Z) : result Z :=
  if b =? 0 then Undefined else Ok (Z.quot a b).

Definition uint16 (v : Z) : Z := v mod 65536.
Definition uint32 (v : Z) : Z := v mod 4294967296.

(** ** libc: strstr and qsort *)

Fixpoint is_prefix (p s : list Z) : bool :=
  match p, s with
  | [], _ => true
  | _ :: _, [] => false
  | a :: p', b :: s' => (a =? b) && is_prefix p' s'
  end.

(** The suffix of [hay] that starts at the first occurrence of [needle]. *)
Fixpoint strstr (hay needle : list Z) : option (list Z) :=
  match hay with
  | [] => if is_prefix needle [] then Some [] else None
  | _ :: r => if is_prefix needle hay then Some hay else strstr r needle
  end.

(** [nmemb] elements of [size] bytes each. *)
Fixpoint elements (nmemb size : nat) (base : list Z) : list (list Z) :=
  match nmemb with
  | O => []
  | S n => firstn size base :: elements n size (skipn size base)
  end.

Section Sorting.
Variable cmp : list Z -> list Z -> Z.

Fixpoint insert_sorted (x : list Z) (l : list (list Z)) : list (list Z) :=
  match l with
  | [] => [x]
  | y :: r => if cmp x y <=? 0 then x :: l else y :: insert_sorted x r
  end.

Fixpoint sort_elements (l : list (list Z)) : list (list Z) :=
  match l with
  | [] => []
  | x :: r => insert_sorted x (sort_elements r)
  end.

(** The array after [qsort(base, nmemb, size, cmp)]: its first
    [nmemb * size] bytes hold the elements in [cmp] order.  (C leaves the
    order of elements that compare equal open; this model keeps it.) *)
Definition sorted_array (base : list Z) (nmemb size : Z) : list Z :=
  concat (sort_elements (elements (Z.to_nat nmemb) (Z.to_nat size) base))
  ++ skipn (Z.to_nat (nmemb * size)) base.
End Sorting.

Definition cmp_le (cmp : list Z -> list Z -> Z) (a b : list Z) : Prop :=
  cmp a b <= 0.

(** ** More of command.c: helpers without table access *)

(** A lower-case hex digit: the characters [valid_hex_ln] lets through. *)
Definition lower_hex (h : Z) : bool :=
  ((48 <=? h) && (h <=? 57)) || ((97 <=? h) && (h <=? 102)).

(** libc [tolower] in the C locale. *)
Definition tolower (c : Z) : Z :=
  if (65 <=? c) && (c <=? 90) then c + 32 else c.

(** *** stricmp (command.c:687) *)
Fixpoint stricmp (a b : cstring) : bool :=
  match a, b with
  | ca :: a', cb :: b' =>
      if negb (ca =? 0) && negb (cb =? 0) then
        if negb (tolower ca =? tolower cb) then false else stricmp a' b'
      else ca =? cb
  | _, _ => hd 0 a =? hd 0 b
  end.

(** *** print_record (command.c:700)

    [ptr] is a record in memory: its bytes, then a terminating NUL.  The
    result is the text sent to stdout. *)
Definition uint8 (v : Z) : Z := v mod 256.

Definition hex_digit (d : Z) : Z := if d <? 10 then 48 + d else 87 + d.

(** [printf("%02x", b)] for a [uint8_t]. *)
Definition printf_02x (b : Z) : list Z :=
  [hex_digit (uint8 b / 16); hex_digit (uint8 b mod 16)].

(** [for (i = 0; i < count; i++) printf("%02x", ptr[from + i])]. *)
Fixpoint print_hex_loop (count : nat) (ptr : list Z) (from : Z)
    : result (list Z) :=
  match count with
  | O => Ok []
  | S n =>
      (b <- load ptr from ;;
       rest <- print_hex_loop n ptr (from + 1) ;;
       Ok (printf_02x b ++ rest))%result
  end.

Definition print_record (ptr : list Z) (keyln hex : Z) : result (list Z) :=
  (* Print key *)
  (key <- print_hex_loop (Z.to_nat keyln) ptr 0 ;;
   (* Print data in hex *)
   data <- print_hex_loop (Z.to_nat hex) ptr keyln ;;
   (* Print remaining data *)
   _ <- guard ((0 <=? keyln + hex) && (keyln + hex <=? len ptr)) ;;
   Ok (key ++ [SPACE] ++ data ++ (if hex =? 0 then [] else [SPACE])
       ++ chars (skipn (Z.to_nat (keyln + hex)) ptr) ++ [10]))%result.


(** Events that change a table or its lock. *)
Definition modifies (e : event) : bool :=
  match e with
  | EvLock _ | EvUnlock _ | EvCollate _ _ _ _ _ _ | EvOpen _ _
  | EvNodeWrite _ _ _ _ _ | EvListUnlink _ | EvFclose | EvQsort _ _ => true
  | _ => false
  end.

(** [strcmp(a, b) == 0]. *)
Fixpoint list_eqb (a b : list Z) : bool :=
  match a, b with
  | [], [] => true
  | x :: a', y :: b' => (x =? y) && list_eqb a' b'
  | _, _ => false
  end.

Definition strcmp_zero (a b : cstring) : bool := list_eqb (chars a) (chars b).

(** The word positions [from, from + 1, ...], [count] of them. *)
Definition word_positions (from : Z) (count : nat) : list Z :=
  map (fun n => from + Z.of_nat n) (seq 0 count).

(** [(int)] of a [long]: 32-bit two's complement. *)
Definition to_int (v : Z) : Z :=
  (v + 2147483648) mod 4294967296 - 2147483648.

Definition EXIT_SUCCESS : Z := 0.
Definition EXIT_FAILURE : Z := 1.

(** ** The shell: what the other commands and shell.c print and call *)

Inductive shell_message : Type :=
| E061_name_too_long        (* E061 db/table name is too long *)
| E064_invalid_name         (* E064 Invalid characters or name is too long *)
| E066_syntax_error         (* E066 Syntax error *)
| E067_not_implemented      (* E067 Command not implemented *)
| E070_no_root              (* E070 Cannot open LDB root directory %s *)
| E072_no_access (name : cstring)   (* E072 Cannot access table %s *)
| Warning_stdin             (* Warning: cannot read STDIN *)
| OK.                       (* OK *)

Inductive shell_event : Type :=
| ShTable (e : event)                   (* a call or line of the table commands *)
| ShPrint (m : shell_message)
| ShLine (name : cstring)               (* printf("%s\n", name) *)
| ShHelp                                (* the text of help() *)
| ShWelcome                             (* the two lines of welcome() *)
| ShPrompt                              (* "ldb> " *)
| ShVersion                             (* ldb_version() *)
| ShCreateDatabase (database : cstring)
| ShCreateTable (db table : cstring) (keylen reclen : Z)
| ShDump (table : ldb_table) (hex sectorn : Z)
| ShDumpKeys (table : ldb_table)
| ShMzCat (path key : cstring).

Definition shell (A : Type) : Type :=
  list shell_event -> result (A * list shell_event).

Definition shell_ret {A} (a : A) : shell A := fun out => Ok (a, out).

Definition shell_bind {A B} (m : shell A) (k : A -> shell B) : shell B :=
  fun out =>
    match m out with
    | Ok (a, out') => k a out'
    | Undefined => Undefined
    | Diverges => Diverges
    end.

Definition shell_emit (e : shell_event) : shell unit :=
  fun out => Ok (tt, out ++ [e]).

Definition shell_lift {A} (r : result A) : shell A :=
  fun out =>
    match r with
    | Ok a => Ok (a, out)
    | Undefined => Undefined
    | Diverges => Diverges
    end.

(** A table command run from the shell: its events follow what the shell
    has put out so far. *)
Definition of_console {A} (m : console A) : shell A :=
  fun out =>
    match m [] with
    | Ok (a, tr) => Ok (a, out ++ map ShTable tr)
    | Undefined => Undefined
    | Diverges => Diverges
    end.

Declare Scope shell_scope.
Delimit Scope shell_scope with shell.
Notation "x <- m ;; k" := (shell_bind m (fun x => k))
  (at level 61, m at next level, right associativity) : shell_scope.
Notation "m ;; k" := (shell_bind m (fun _ => k))
  (at level 61, right associativity) : shell_scope.

(** [sprintf(buffer, "%s/%s", a, b)] into a buffer of [size] bytes. *)
Definition sprintf_path (size : Z) (a b : cstring) : result cstring :=
  if strlen a + 1 + strlen b + 1 <=? size
  then Ok (chars a ++ [47] ++ chars b)
  else Undefined.

Definition is_shell_table (e : shell_event) : bool :=
  match e with ShTable _ => true | _ => false end.

(** A typed line: the text and its newline. *)
Definition line (s : string) : cstring := cstr s ++ [10].

(** ** A concrete environment, to run the commands *)

Module Fixture.

Fixpoint cstring_eqb (a b : cstring) : bool :=
  match a, b with
  | [], [] => true
  | x :: a', y :: b' => (x =? y) && cstring_eqb a' b'
  | _, _ => false
  end.

(** The [n]-th word of a command, counted from 1; empty when absent. *)
Definition ldb_extract_word (n : Z) (command : cstring) : cstring :=
  nth (Z.to_nat (n - 1)) (split_words [] (chars command)) [].

Fixpoint atoi_digits (acc : Z) (s : cstring) : Z :=
  match s with
  | c :: r =>
      if (48 <=? c) && (c <=? 57) then atoi_digits (acc * 10 + (c - 48)) r
      else acc
  | [] => acc
  end.

Definition atoi (s : cstring) : Z :=
  match s with
  | 45 :: r => - atoi_digits 0 r
  | _ => atoi_digits 0 s
  end.

(** Three tables: 4-byte keys with variable records, 4-byte keys with
    8-byte records, 16-byte keys with variable records. *)
Definition tables : list ldb_table :=
  [ mk_table (cstr "db/t") 4 0 false;
    mk_table (cstr "db/fixed") 4 8 false;
    mk_table (cstr "db/wide") 16 0 false ].

Definition find_table (name : cstring) : option ldb_table :=
  find (fun t => cstring_eqb (table_name t) name) tables.

Definition ldb_valid_table (name : cstring) : bool :=
  match find_table name with Some _ => true | None => false end.

Definition stored_cfg (name : cstring) : ldb_table :=
  match find_table name with
  | Some t => t
  | None => mk_table name 0 0 false
  end.

(** Modelled from the spec: [ldb_hex_to_bin] is defined outside these
    sources.  Spec section 4.1: hex to binary conversion of keys, two
    digits per byte; a character that is no hex digit counts as 0 here. *)
Definition h2d (h : Z) : Z :=
  if (48 <=? h) && (h <=? 57) then h - 48
  else if (97 <=? h) && (h <=? 102) then h - 97 + 10
  else if (65 <=? h) && (h <=? 70) then h - 65 + 10
  else 0.

Fixpoint hex_pairs (n : nat) (hex : cstring) : list Z :=
  match n with
  | O => []
  | S n' => (16 * h2d (nth 0 hex 0) + h2d (nth 1 hex 0))
            :: hex_pairs n' (skipn 2 hex)
  end.

Definition ldb_hex_to_bin (hex : cstring) (hex_ln : Z) : list Z :=
  hex_pairs (Z.to_nat (hex_ln / 2)) hex.

(** Modelled from the spec: [uint16_write] is defined outside these
    sources.  Spec section 4.1: a fixed-width 16-bit encoding, the same
    for all writers and readers; low byte first here. *)
Definition uint16_write (v : Z) : Z * Z := (v mod 256, v / 256).
Definition uint16_read (b : Z * Z) : Z := fst b + 256 * snd b.

(** Modelled from the spec: [ldb_collate_cmp] is defined outside these
    sources.  Spec section 4.4: the full-key byte comparator, byte by
    byte from the first. *)
Fixpoint ldb_collate_cmp (a b : list Z) : Z :=
  match a, b with
  | x :: a', y :: b' =>
      if x >? y then 1 else if x <? y then -1 else ldb_collate_cmp a' b'
  | _, _ => 0
  end.

(** *** The shell's environment

    Words are counted as [ldb_extract_word] finds them. *)
Definition ldb_word_count (s : cstring) : Z :=
  Z.of_nat (length (split_words [] (chars s))).

Definition is_hex_digit (c : Z) : bool :=
  ((48 <=? c) && (c <=? 57)) || ((97 <=? c) && (c <=? 102))
  || ((65 <=? c) && (c <=? 70)).

(** A non-empty word of hex digit pairs. *)
Definition ldb_valid_hex (s : cstring) : bool :=
  negb (strlen s =? 0) && (strlen s mod 2 =? 0)
  && forallb is_hex_digit (chars s).

(** A non-empty word of printable characters. *)
Definition ldb_valid_ascii (s : cstring) : bool :=
  negb (strlen s =? 0) && forallb (fun c => (33 <=? c) && (c <? 127)) (chars s).

(** The known commands, as the help text gives them; a command that
    begins like another one stands before it. *)
Definition command_table : list (commandtype * string) :=
  [ (HELP, "help");
    (CREATE_DATABASE, "create database {ascii}");
    (CREATE_TABLE, "create table {ascii} keylen {ascii} reclen {ascii}");
    (SHOW_DATABASES, "show databases");
    (SHOW_TABLES, "show tables from {ascii}");
    (INSERT_ASCII, "insert into {ascii} key {hex} ascii {ascii}");
    (INSERT_HEX, "insert into {ascii} key {hex} hex {hex}");
    (SELECT_ASCII, "select from {ascii} key {hex} ascii");
    (SELECT_CSV, "select from {ascii} key {hex} csv hex {ascii}");
    (SELECT, "select from {ascii} key {hex}");
    (DELETE, "delete from {ascii} max {ascii} keys {ascii}");
    (COLLATE, "collate {ascii} max {ascii}");
    (MERGE, "merge {ascii} into {ascii} max {ascii}");
    (VERSION, "version");
    (UNLINK_LIST, "unlink list from {ascii} key {hex}");
    (DUMP_KEYS, "dump keys from {ascii}");
    (CAT_MZ, "cat {hex} from {ascii}");
    (DUMP_SECTOR, "dump {ascii} hex {ascii} sector {hex}");
    (DUMP, "dump {ascii} hex {ascii}") ]%string.

Definition ldb_commands : list cstring :=
  map (fun entry => cstr (snd entry)) command_table.

Definition commandtype_value (t : commandtype) : Z :=
  match t with
  | HELP => 0 | CREATE_DATABASE => 1 | CREATE_TABLE => 2
  | SHOW_DATABASES => 3 | SHOW_TABLES => 4 | INSERT_ASCII => 5
  | INSERT_HEX => 6 | SELECT_ASCII => 7 | SELECT_CSV => 8 | SELECT => 9
  | DELETE => 10 | COLLATE => 11 | MERGE => 12 | VERSION => 13
  | UNLINK_LIST => 14 | DUMP_KEYS => 15 | CAT_MZ => 16
  | DUMP_SECTOR => 17 | DUMP => 18
  end.

(** [strtol] in base 16: the leading hex digits. *)
Fixpoint strtol_digits (acc : Z) (s : cstring) : Z :=
  match s with
  | c :: r => if is_hex_digit c then strtol_digits (acc * 16 + h2d c) r else acc
  | [] => acc
  end.

Definition strtol16 (s : cstring) : Z :=
  match s with
  | 45 :: r => - strtol_digits 0 r
  | _ => strtol_digits 0 s
  end.

Definition ldb_root : cstring := cstr "/var/lib/ldb".
Definition LDB_MAX_PATH : Z := 1024.
Definition mz_path_size : Z := 1024.

(** Names of letters, digits, [-] and [_], shorter than 64 characters. *)
Definition name_char (c : Z) : bool :=
  ((48 <=? c) && (c <=? 57)) || ((97 <=? c) && (c <=? 122))
  || ((65 <=? c) && (c <=? 90)) || (c =? 45) || (c =? 95).

Definition ldb_valid_name (s : cstring) : bool :=
  (strlen s <? 64) && forallb name_char (chars s).

Definition ldb_create_database (database : cstring) : bool := true.

Definition ldb_create_table (db table : cstring) (keylen reclen : Z) : bool :=
  true.

(** [dbtable] cut at its first [/]: the two names. *)
Fixpoint split_at_slash (s : list Z) : list Z * list Z :=
  match s with
  | [] => ([], [])
  | c :: r =>
      if c =? 47 then ([], r)
      else (c :: fst (split_at_slash r), snd (split_at_slash r))
  end.

Definition ldb_split_string (dbtable : cstring) : cstring * cstring :=
  split_at_slash (chars dbtable).

(** A root with the database [db] and its three tables, among entries
    that are hidden or no directories. *)
Definition directories : list cstring :=
  map cstr [ "/var/lib/ldb/db"; "/var/lib/ldb/db/t"; "/var/lib/ldb/db/fixed";
             "/var/lib/ldb/db/wide" ]%string.

Definition ldb_dir_exists (path : cstring) : bool :=
  existsb (cstring_eqb (chars path)) directories.

Definition opendir (path : cstring) : option (list cstring) :=
  if cstring_eqb (chars path) (cstr "/var/lib/ldb") then
    Some (map cstr [ "."; ".."; "db"; "ldb.lock" ]%string)
  else if cstring_eqb (chars path) (cstr "/var/lib/ldb/db") then
    Some (map cstr [ "."; ".."; "t"; ".t.tmp"; "fixed"; "notes.txt"; "wide" ]%string)
  else None.

(** [ldb_trim]: without the blanks at the end of the line. *)
Fixpoint drop_blanks (s : list Z) : list Z :=
  match s with
  | c :: r => if blank c then drop_blanks r else s
  | [] => []
  end.

Definition ldb_trim (s : cstring) : cstring :=
  rev (drop_blanks (rev (chars s))).

Definition ldb_check_root : bool := true.

End Fixture.

(** ** command.c *)

Section Console.

(** What command.c takes from the rest of LDB (ldb.h is not among the
    sources): the word extractor, [atoi], the table check, the stored
    table configuration, the hex decoder (the bytes it stores at [out]
    for the string at [hex] and the count [hex_ln]), the 16-bit encoder
    (the two bytes it stores) and the collation comparator. *)
Variable ldb_extract_word : Z -> cstring -> cstring.
Variable atoi : cstring -> Z.
Variable ldb_valid_table : cstring -> bool.
Variable stored_cfg : cstring -> ldb_table.
Variable ldb_hex_to_bin : cstring -> Z -> list Z.
Variable uint16_write : Z -> Z * Z.
Variable ldb_collate_cmp : list Z -> list Z -> Z.

Local Open Scope console_scope.

Definition printf (m : message) : console unit := emit (EvPrintf m).
Definition ldb_lock (t : cstring) : console unit := emit (EvLock t).
Definition ldb_unlock (t : cstring) : console unit := emit (EvUnlock t).
Definition ldb_read_cfg (t : cstring) : console ldb_table :=
  emit (EvReadCfg t) ;; ret (stored_cfg t).
Definition ldb_collate (table out_table : ldb_table) (max_rec_ln : Z)
    (erase : bool) (del_keys : option (list Z)) (del_ln : Z) : console unit :=
  emit (EvCollate table out_table max_rec_ln erase del_keys del_ln).
Definition ldb_open (table : ldb_table) (key : list Z) : console unit :=
  emit (EvOpen table key).
Definition ldb_node_write (table : ldb_table) (key data : list Z)
    (dln records : Z) : console unit :=
  emit (EvNodeWrite table key data dln records).
Definition ldb_list_unlink (key : list Z) : console unit :=
  emit (EvListUnlink key).
Definition fclose : console unit := emit EvFclose.
Definition ldb_fetch_recordset (table : ldb_table) (key : list Z)
    (skip_subkey : bool) (handler : record_handler) : console unit :=
  emit (EvFetchRecordset table key skip_subkey handler).

Definition qsort (base : list Z) (nmemb size : Z) : console (list Z) :=
  lift (guard ((0 <=? nmemb) && (0 <? size) && (nmemb * size <=? len base))) ;;
  emit (EvQsort nmemb size) ;;
  ret (sorted_array ldb_collate_cmp base nmemb size).

(** *** keys_start (command.c:133) *)
Definition keys_start (command : cstring) : option cstring :=
  let keyword := cstr " keys " in
  match strstr (chars command) keyword with
  | Some keys_word => Some (skipn (length keyword) keys_word)
  | None => None
  end.

(** *** valid_hex_ln (command.c:148) *)
Fixpoint valid_hex_loop (n : nat) (str : cstring) : bool :=
  match n with
  | O => true
  | S n' =>
      let h := hd 0 str in
      if (h <? 48) || ((h >? 57) && (h <? 97)) || (h >? 102) then false
      else valid_hex_loop n' (tl str)
  end.

Definition valid_hex_ln (str : cstring) (ln : Z) : bool :=
  valid_hex_loop (Z.to_nat ln) str.

(** *** fetch_keys (command.c:166)

    [pos] is [key - keys]; the result is the key blob and [*size]. *)
Fixpoint fetch_keys_loop (fuel : nat) (keys : cstring) (keys_ln key_ln : Z)
    (pos : Z) (keyblob : list Z) (size : Z) : result (list Z * Z) :=
  match fuel with
  | O => Diverges
  | S fuel' =>
      (c <- char_at keys pos ;;
       if negb (c =? 0) && (pos <? keys_ln) then
         (* Skip commas and spaces *)
         if (c =? SPACE) || (c =? COMMA) then
           fetch_keys_loop fuel' keys keys_ln key_ln (pos + 1) keyblob size
         (* Validate key *)
         else if valid_hex_ln (advance keys pos) key_ln then
           (_ <- guard (pos + key_ln * 2 <=? keys_ln + 1) ;;
            keyblob' <- store keyblob size
                          (ldb_hex_to_bin (advance keys pos) (key_ln * 2)) ;;
            (* Make sure first byte is same as the first key *)
            if negb (pos =? 0) then
              (first <- load keyblob' 0 ;;
               this <- load keyblob' size ;;
               if negb (first =? this) then Ok (keyblob', 0)
               else fetch_keys_loop fuel' keys keys_ln key_ln
                      (pos + key_ln * 2) keyblob' (size + key_ln))
            else fetch_keys_loop fuel' keys keys_ln key_ln
                   (pos + key_ln * 2) keyblob' (size + key_ln))
         (* Bad input detected *)
         else Ok (keyblob, 0)
       else Ok (keyblob, size))%result
  end.

Definition fetch_keys (keys : option cstring) (key_ln : Z)
    : result (list Z * Z) :=
  match keys with
  | None => Undefined          (* strlen(NULL) *)
  | Some keys =>
      let keys_ln := strlen keys in
      let keyblob := calloc (keys_ln / 2) in
      fetch_keys_loop (S (strlen_nat keys)) keys keys_ln key_ln 0 keyblob 0
  end.

(** *** ldb_command_delete (command.c:211) *)
Definition ldb_command_delete (command : cstring) : console unit :=
  let dbtable := ldb_extract_word 3 command in
  let max_ln := ldb_extract_word 5 command in
  let max := atoi max_ln in
  (if ldb_valid_table dbtable then
     ldb_lock dbtable ;;
     ldbtable <- ldb_read_cfg dbtable ;;
     tmptable <- ldb_read_cfg dbtable ;;
     let tmptable := set_tmp true tmptable in
     let tmptable := set_key_ln LDB_KEY_LN tmptable in
     fetched <- lift (fetch_keys (keys_start command) (key_ln ldbtable)) ;;
     let keys := fst fetched in
     let keys_ln := snd fetched in
     if key_ln ldbtable >? keys_ln then
       printf (E076_keys (key_ln ldbtable))
     else if negb (rec_ln ldbtable =? 0) && negb (rec_ln ldbtable =? max) then
       printf (E076_fixed_length (rec_ln ldbtable))
     else if max <? key_ln ldbtable then
       printf E076_max_below_key
     else
       nmemb <- lift (c_div keys_ln (key_ln ldbtable)) ;;
       keys <- qsort keys nmemb (key_ln ldbtable) ;;
       printf (Removing_keys nmemb) ;;
       ldb_collate ldbtable tmptable max false (Some keys) keys_ln
   else ret tt) ;;
  ldb_unlock dbtable.

(** *** ldb_command_collate (command.c:261) *)
Definition ldb_command_collate (command : cstring) : console unit :=
  let dbtable := ldb_extract_word 2 command in
  let max_ln := ldb_extract_word 4 command in
  let max := atoi max_ln in
  (if ldb_valid_table dbtable then
     ldb_lock dbtable ;;
     ldbtable <- ldb_read_cfg dbtable ;;
     tmptable <- ldb_read_cfg dbtable ;;
     let tmptable := set_tmp true tmptable in
     let tmptable := set_key_ln LDB_KEY_LN tmptable in
     if negb (rec_ln ldbtable =? 0) && negb (rec_ln ldbtable =? max) then
       printf (E076_fixed_length (rec_ln ldbtable))
     else if max <? key_ln ldbtable then
       printf E076_max_below_key
     else
       ldb_collate ldbtable tmptable max false None 0
   else ret tt) ;;
  ldb_unlock dbtable.

(** *** ldb_command_merge (command.c:334) *)
Definition ldb_command_merge (command : cstring) : console unit :=
  let dbtable := ldb_extract_word 2 command in
  let totable := ldb_extract_word 4 command in
  let max_ln := ldb_extract_word 6 command in
  let max := atoi max_ln in
  (if ldb_valid_table dbtable then
     ldb_lock dbtable ;;
     ldbtable <- ldb_read_cfg dbtable ;;
     outtable <- ldb_read_cfg totable ;;
     if negb (rec_ln ldbtable =? 0) && negb (rec_ln ldbtable =? max) then
       printf (E076_fixed_length (rec_ln ldbtable))
     else if max <? key_ln ldbtable then
       printf E076_max_below_key
     else if negb (key_ln ldbtable =? key_ln outtable) then
       printf E076_merge_key_length
     else if negb (rec_ln ldbtable =? rec_ln outtable) then
       printf E076_merge_record_type
     else
       let outtable := set_tmp false outtable in
       let outtable := set_key_ln LDB_KEY_LN outtable in
       ldb_collate ldbtable outtable max true None 0
   else ret tt) ;;
  ldb_unlock dbtable.

(** *** ldb_command_unlink_list (command.c:387) *)
Definition ldb_command_unlink_list (command : cstring) : console unit :=
  let dbtable := ldb_extract_word 4 command in
  let key := ldb_extract_word 6 command in
  if ldb_valid_table dbtable then
    (* Validate key and data *)
    if negb (strlen key =? 8) then printf E075_key_not_32_bits
    else
      let keybin := ldb_hex_to_bin key (strlen key) in
      ldbtable <- ldb_read_cfg dbtable ;;
      ldb_open ldbtable keybin ;;
      ldb_list_unlink keybin ;;
      fclose
  else ret tt.

(** *** ldb_command_insert (command.c:428)

    [data] has room after its terminator (the code moves it up by four
    bytes); a buffer is given by the bytes the command has put in it. *)
Definition record_header (dataln : Z) : list Z :=
  let total := uint16_write (uint16 (uint16 dataln + 2)) in
  let payload := uint16_write (uint16 dataln) in
  [fst total; snd total; fst payload; snd payload].

Definition ldb_command_insert (command : cstring) (type : commandtype)
    : console unit :=
  let dbtable := ldb_extract_word 3 command in
  let key := ldb_extract_word 5 command in
  let data := ldb_extract_word 7 command in
  if ldb_valid_table dbtable then
    (* Validate key and data *)
    if strlen key <? 8 then printf E071_key_too_short
    else
      (* Convert key and data to binary *)
      let keybin := ldb_hex_to_bin key (strlen key) in
      let databin :=
        if is_insert_hex type then ldb_hex_to_bin data (strlen key) else [] in
      let dataln :=
        if is_insert_hex type then uint32 (strlen data / 2)
        else uint32 (strlen data) in
      (* Make room for recordset/record size *)
      let data :=
        record_header dataln ++ firstn (Z.to_nat dataln) (chars data)
        ++ skipn (Z.to_nat (dataln + 4)) (chars data) in
      let dataln := uint32 (dataln + 4) in
      ldbtable <- ldb_read_cfg dbtable ;;
      (* Write record into ldb table *)
      ldb_open ldbtable keybin ;;
      (if is_insert_hex type
       then ldb_node_write ldbtable keybin databin dataln 0
       else ldb_node_write ldbtable keybin data dataln 0) ;;
      fclose
  else ret tt.

(** The buffer and length [ldb_command_insert] hands to
    [ldb_node_write]. *)
Definition inserted_record (key data : cstring) (type : commandtype)
    : list Z * Z :=
  let dataln0 :=
    if is_insert_hex type then uint32 (strlen data / 2)
    else uint32 (strlen data) in
  (if is_insert_hex type then ldb_hex_to_bin data (strlen key)
   else record_header dataln0
        ++ firstn (Z.to_nat dataln0) (chars data)
        ++ skipn (Z.to_nat (dataln0 + 4)) (chars data),
   uint32 (dataln0 + 4)).

(** *** ldb_command_select (command.c:521) *)
Definition ldb_command_select (command : cstring) (format : select_format)
    : console unit :=
  let dbtable := ldb_extract_word 3 command in
  let key := ldb_extract_word 5 command in
  let hex_bytes :=
    match format with
    | CSV => atoi (ldb_extract_word 8 command)
    | _ => 0
    end in
  if ldb_valid_table dbtable then
    (* Validate key *)
    if strlen key <? 8 then printf E071_key_too_short
    else
      (* Convert key to binary *)
      let keybin := ldb_hex_to_bin key (strlen key) in
      let key_ln' := strlen key / 2 in   (* the local [key_ln] *)
      ldbtable <- ldb_read_cfg dbtable ;;
      let width := if rec_ln ldbtable =? 0 then 16 else rec_ln ldbtable in
      (* Verify that provided key matches table key_ln (or main LDB_KEY_LEN) *)
      if negb (key_ln' =? key_ln ldbtable) && negb (key_ln' =? LDB_KEY_LN) then
        printf E073_key_length_invalid
      else
        match format with
        | HEX =>
            ldb_fetch_recordset ldbtable keybin (key_ln' =? 4)
              (ldb_hexprint_width width)
        | ASCII =>
            ldb_fetch_recordset ldbtable keybin (key_ln' =? 4) ldb_asciiprint
        | CSV =>
            ldb_fetch_recordset ldbtable keybin (key_ln' =? 4)
              (ldb_csvprint hex_bytes)
        end
  else ret tt.


(** ** command.c and shell.c: syntax check and dispatch *)

(** What the remaining functions take from the rest of LDB: the word
    counter, the table of known commands (its first [ldb_commands_count]
    entries) and the two word validators. *)
Variable ldb_word_count : cstring -> Z.
Variable ldb_commands : list cstring.
Variable ldb_valid_hex : cstring -> bool.
Variable ldb_valid_ascii : cstring -> bool.

(** *** ldb_syntax_check (command.c:85) *)

(** The body of the inner loop up to [if (!fulfilled) break]. *)
Definition fulfilled (kword cword : cstring) : bool :=
  if strcmp_zero kword (cstr "{hex}") then ldb_valid_hex cword
  else if strcmp_zero kword (cstr "{ascii}") then ldb_valid_ascii cword
  else if strcmp_zero kword cword then true
  else false.

(** [for (j = ...; j <= limit; j++)], with [count] iterations left; the
    state is [hits] and the two output cells [(command_nr, word_nr)]. *)
Fixpoint check_words (count : nat) (j : Z) (command known : cstring) (i : Z)
    (hits : Z) (nr : Z * Z) : Z * (Z * Z) :=
  match count with
  | O => (hits, nr)
  | S count' =>
      let cword := ldb_extract_word j command in
      let kword := ldb_extract_word j known in
      if negb (fulfilled kword cword) then (hits, nr)
      else if j >? hits then
        check_words count' (j + 1) command known i j (i, j)
      else check_words count' (j + 1) command known i hits nr
  end.

(** [for (i = ...; i < ldb_commands_count; i++)] over the commands left. *)
Fixpoint syntax_check_loop (known_commands : list cstring) (i : Z)
    (command : cstring) (command_words : Z) (nr : Z * Z) : bool * (Z * Z) :=
  match known_commands with
  | [] => (false, nr)
  | known :: rest =>
      let known_words := ldb_word_count known in
      let limit :=
        if command_words <? known_words then command_words
        else known_words in
      let r := check_words (Z.to_nat limit) 1 command known i 0 nr in
      if (fst r >? 0) && (fst r =? known_words) then (true, snd r)
      else syntax_check_loop rest (i + 1) command command_words (snd r)
  end.

(** The result, and the cells [*command_nr] and [*word_nr] afterwards. *)
Definition ldb_syntax_check (command : cstring) (command_nr word_nr : Z)
    : bool * (Z * Z) :=
  syntax_check_loop ldb_commands 0 command (ldb_word_count command)
    (command_nr, word_nr).

(** A known command matches: it has a word, no more words than the command,
    and each of its words is fulfilled by the command's word there. *)
Definition matches (command known : cstring) : bool :=
  (0 <? ldb_word_count known)
  && (ldb_word_count known <=? ldb_word_count command)
  && forallb
       (fun j => fulfilled (ldb_extract_word j known)
                   (ldb_extract_word j command))
       (word_positions 1 (Z.to_nat (ldb_word_count known))).

(** What the housekeeping commands and shell.c take from the rest of LDB
    and from the system: [strtol] in base 16, the root directory and the
    size of a path buffer, the name check, the two creators (whether they
    succeed), what [dbtable] and [dbtable + ldb_split_string(dbtable, '/')]
    read as, the entries [readdir] gives for a directory ([None]: [opendir]
    fails), the directory test, the values of the [commandtype]
    enumerators, [ldb_trim], the root check, and the size of
    [mz_job.path]. *)
Variable strtol16 : cstring -> Z.
Variable ldb_root : cstring.
Variable LDB_MAX_PATH : Z.
Variable ldb_valid_name : cstring -> bool.
Variable ldb_create_database : cstring -> bool.
Variable ldb_create_table : cstring -> cstring -> Z -> Z -> bool.
Variable ldb_split_string : cstring -> cstring * cstring.
Variable opendir : cstring -> option (list cstring).
Variable ldb_dir_exists : cstring -> bool.
Variable commandtype_value : commandtype -> Z.
Variable ldb_trim : cstring -> cstring.
Variable ldb_check_root : bool.
Variable mz_path_size : Z.

Local Open Scope shell_scope.

Definition shell_printf (m : shell_message) : shell unit :=
  shell_emit (ShPrint m).

(** *** ldb_command_dump (command.c:300) *)
Definition ldb_command_dump (command : cstring) : shell unit :=
  let sectorn := -1 in   (* all sectors *)
  let dbtable := ldb_extract_word 2 command in
  let hex_n := ldb_extract_word 4 command in
  let sector := ldb_extract_word 5 command in
  let sectorn :=
    if negb (hd 0 sector =? 0) then
      let sector_n := ldb_extract_word 6 command in
      let sectorn := to_int (strtol16 sector_n) in
      if (sectorn <? 0) || (sectorn >? 256) then -1 else sectorn
    else sectorn in
  let hex := atoi hex_n in
  if ldb_valid_table dbtable then
    ldbtable <- of_console (ldb_read_cfg dbtable) ;;
    shell_emit (ShDump ldbtable hex sectorn)
  else shell_ret tt.

(** *** ldb_command_create_table (command.c:497) *)
Definition ldb_command_create_table (command : cstring) : shell unit :=
  let keylen := atoi (ldb_extract_word 5 command) in
  let reclen := atoi (ldb_extract_word 7 command) in
  let dbtable := ldb_extract_word 3 command in
  let db := fst (ldb_split_string dbtable) in
  let table := snd (ldb_split_string dbtable) in
  shell_emit (ShCreateTable db table keylen reclen) ;;
  if ldb_create_table db table keylen reclen then shell_printf OK
  else shell_ret tt.

(** *** ldb_command_create_database (command.c:592) *)
Definition ldb_command_create_database (command : cstring) : shell unit :=
  let database := ldb_extract_word 3 command in
  _ <- shell_lift (sprintf_path LDB_MAX_PATH ldb_root database) ;;
  if negb (ldb_valid_name database) then shell_printf E064_invalid_name
  else
    shell_emit (ShCreateDatabase database) ;;
    if ldb_create_database database then shell_printf OK else shell_ret tt.

(** The [readdir] loop of both listings: entries that do not start with a
    dot and are directories get a line. *)
Fixpoint print_directories (path : cstring) (entries : list cstring)
    : shell unit :=
  match entries with
  | [] => shell_ret tt
  | d_name :: rest =>
      (if negb (hd 0 d_name =? 46) then
         tpath <- shell_lift (sprintf_path LDB_MAX_PATH path d_name) ;;
         if ldb_dir_exists tpath then shell_emit (ShLine d_name)
         else shell_ret tt
       else shell_ret tt) ;;
      print_directories path rest
  end.

(** *** ldb_command_show_databases (command.c:615) *)
Definition ldb_command_show_databases : shell unit :=
  match opendir ldb_root with
  | Some entries => print_directories ldb_root entries
  | None => shell_printf E070_no_root
  end.

(** *** ldb_command_show_tables (command.c:639) *)
Definition ldb_command_show_tables (command : cstring) : shell unit :=
  let dbname := ldb_extract_word 4 command in
  (* Verify that db/table path is not too long *)
  if strlen dbname + strlen ldb_root + 1 >=? LDB_MAX_PATH then
    shell_printf E061_name_too_long
  else if negb (ldb_valid_name dbname) then shell_printf E064_invalid_name
  else
    path <- shell_lift (sprintf_path LDB_MAX_PATH ldb_root dbname) ;;
    match opendir path with
    | Some entries => print_directories path entries
    | None => shell_printf (E072_no_access dbname)
    end.

(** *** ldb_command_dump_keys (command.c:723) *)
Definition ldb_command_dump_keys (command : cstring) : shell unit :=
  let dbtable := ldb_extract_word 4 command in
  if ldb_valid_table dbtable then
    ldbtable <- of_console (ldb_read_cfg dbtable) ;;
    shell_emit (ShDumpKeys ldbtable)
  else shell_ret tt.

(** *** ldb_mz_cat (command.c:744) *)
Definition ldb_mz_cat (command : cstring) : shell unit :=
  let key := ldb_extract_word 2 command in
  let dbtable := ldb_extract_word 4 command in
  path <- shell_lift (sprintf_path mz_path_size ldb_root dbtable) ;;
  if ldb_valid_table dbtable then shell_emit (ShMzCat path key)
  else shell_ret tt.

(** *** execute (shell.c:99) *)
Definition execute (raw_command : cstring) : shell bool :=
  let command := ldb_command_normalize raw_command in
  (* Empty command does nothing *)
  if strlen command =? 0 then shell_ret true
  (* QUIT quits *)
  else if strcmp_zero command (cstr "quit") then shell_ret false
  else
    (* Parse other commands *)
    let checked := ldb_syntax_check command 0 0 in
    let command_nr := fst (snd checked) in
    if negb (fst checked) then
      shell_printf E066_syntax_error ;; shell_ret true
    else
      (if command_nr =? commandtype_value HELP then shell_emit ShHelp
       else if command_nr =? commandtype_value SHOW_TABLES then
         ldb_command_show_tables command
       else if command_nr =? commandtype_value SHOW_DATABASES then
         ldb_command_show_databases
       else if command_nr =? commandtype_value INSERT_ASCII then
         of_console (ldb_command_insert command INSERT_ASCII)
       else if command_nr =? commandtype_value INSERT_HEX then
         of_console (ldb_command_insert command INSERT_HEX)
       else if command_nr =? commandtype_value SELECT then
         of_console (ldb_command_select command HEX)
       else if command_nr =? commandtype_value SELECT_ASCII then
         of_console (ldb_command_select command ASCII)
       else if command_nr =? commandtype_value SELECT_CSV then
         of_console (ldb_command_select command CSV)
       else if command_nr =? commandtype_value CREATE_DATABASE then
         ldb_command_create_database command
       else if command_nr =? commandtype_value CREATE_TABLE then
         ldb_command_create_table command
       else if command_nr =? commandtype_value UNLINK_LIST then
         of_console (ldb_command_unlink_list command)
       else if command_nr =? commandtype_value COLLATE then
         of_console (ldb_command_collate command)
       else if command_nr =? commandtype_value DELETE then
         of_console (ldb_command_delete command)
       else if command_nr =? commandtype_value MERGE then
         of_console (ldb_command_merge command)
       else if command_nr =? commandtype_value DUMP_KEYS then
         ldb_command_dump_keys command
       else if command_nr =? commandtype_value CAT_MZ then
         ldb_mz_cat command
       else if command_nr =? commandtype_value VERSION then
         shell_emit ShVersion
       else if command_nr =? commandtype_value DUMP then
         ldb_command_dump command
       else if command_nr =? commandtype_value DUMP_SECTOR then
         ldb_command_dump command
       else shell_printf E067_not_implemented) ;;
      shell_ret true.

(** *** stdin_handle (shell.c:213)

    [line] is what [getline] has read: a line of the input, or nothing at
    its end, when the sources do not tell what [command] holds. *)
Definition stdin_handle (line : option cstring) : shell bool :=
  match line with
  | None => shell_lift Undefined
  | Some command =>
      (if len command =? 0 then shell_printf Warning_stdin
       else shell_ret tt) ;;
      execute (ldb_trim command)
  end.

(** *** main (shell.c:253)

    [stdin_off] is the answer of [is_stdin_off()], true on a terminal;
    [stdin] are the lines still to be read.  The do-while loop: *)
Fixpoint command_loop (stdin_off : bool) (stdin : list cstring) : shell unit :=
  match stdin with
  | [] =>
      (if stdin_off then shell_emit ShPrompt else shell_ret tt) ;;
      _ <- stdin_handle None ;;
      shell_ret tt
  | line :: rest =>
      (if stdin_off then shell_emit ShPrompt else shell_ret tt) ;;
      stay <- stdin_handle (Some line) ;;
      if stay && stdin_off then command_loop stdin_off rest
      else shell_ret tt
  end.

Definition main (stdin_off : bool) (stdin : list cstring) : shell Z :=
  if negb ldb_check_root then shell_ret EXIT_FAILURE
  else
    (if stdin_off then shell_emit ShWelcome else shell_ret tt) ;;
    command_loop stdin_off stdin ;;
    shell_ret EXIT_SUCCESS.

Local Close Scope shell_scope.

(** * Properties *)

(** ** Normalisation *)

Lemma last_snoc (l : list Z) (c d : Z) : last (l ++ [c]) d = c.
Proof. apply last_last. Qed.

Lemma fold_appended s : forall tmp,
  fold_left normalize_step s tmp = tmp ++ appended (suppress tmp) s.
Proof.
  induction s as [|c r IH]; intros tmp; simpl.
  - now rewrite app_nil_r.
  - unfold normalize_step at 2.
    destruct (c >? SPACE) eqn:Hc.
    + rewrite IH. unfold suppress. rewrite last_snoc, length_app. simpl.
      replace (Nat.eqb (length tmp + 1) 0) with false by (symmetry; apply Nat.eqb_neq; lia).
      replace (c =? SPACE) with false by (symmetry; apply Z.eqb_neq; lia).
      simpl. now rewrite <- app_assoc.
    + replace (c <=? SPACE) with true by (symmetry; apply Z.leb_le; lia).
      unfold suppress. destruct (Nat.eqb (length tmp) 0) eqn:He; simpl.
      * rewrite IH. unfold suppress. now rewrite He.
      * destruct (last tmp 0 =? SPACE) eqn:Hl; simpl.
        -- rewrite IH. unfold suppress. now rewrite He, Hl.
        -- rewrite IH. unfold suppress. rewrite last_snoc, length_app. simpl.
           replace (Nat.eqb (length tmp + 1) 0) with false by (symmetry; apply Nat.eqb_neq; lia).
           simpl. now rewrite <- app_assoc.
Qed.

Lemma right_trim_word cur : cur <> [] -> Forall nonblank cur -> right_trim cur = cur.
Proof.
  intros Hne Hall. unfold right_trim.
  destruct cur as [|a l]; [congruence|]. simpl length. simpl negb.
  assert (Hin : In (last (a :: l) 0) (a :: l)).
  { destruct (exists_last Hne) as (l' & x & ->). rewrite last_last. apply in_or_app. right. now left. }
  rewrite Forall_forall in Hall. apply Hall in Hin. unfold nonblank in Hin.
  replace (last (a :: l) 0 =? SPACE) with false by (symmetry; apply Z.eqb_neq; lia).
  reflexivity.
Qed.

Lemma right_trim_app p x : x <> [] -> right_trim (p ++ x) = p ++ right_trim x.
Proof.
  intros Hx. unfold right_trim.
  destruct (exists_last Hx) as (l' & c & ->).
  rewrite app_assoc, !last_last, !removelast_last, !length_app. simpl.
  replace (Nat.eqb (length p + length l' + 1) 0) with false by (symmetry; apply Nat.eqb_neq; lia).
  replace (Nat.eqb (length l' + 1) 0) with false by (symmetry; apply Nat.eqb_neq; lia).
  simpl. destruct (c =? SPACE); [reflexivity | now rewrite app_assoc].
Qed.

Lemma appended_true_head s c x : appended true s = c :: x -> nonblank c.
Proof.
  induction s as [|a r IH]; simpl; [discriminate|].
  destruct (a >? SPACE) eqn:Ha.
  - intros [= <- _]. unfold nonblank. lia.
  - exact IH.
Qed.

Lemma appended_true_nil s : appended true s = [] -> split_words [] s = [].
Proof.
  induction s as [|a r IH]; simpl; [reflexivity|].
  unfold blank. destruct (a >? SPACE) eqn:Ha; [discriminate|].
  replace (a <=? SPACE) with true by (symmetry; apply Z.leb_le; lia). exact IH.
Qed.

Lemma right_trim_head_nonblank c x : nonblank c -> right_trim (c :: x) <> [].
Proof.
  intros Hc. unfold right_trim. simpl length. simpl negb.
  destruct (last (c :: x) 0 =? SPACE) eqn:Hl; [|discriminate].
  destruct x as [|b y]; [|simpl; discriminate].
  simpl in Hl. unfold nonblank in Hc. lia.
Qed.

Lemma join_cons_nonnil w ws : ws <> [] -> join_words (w :: ws) = w ++ SPACE :: join_words ws.
Proof. destruct ws; [congruence | reflexivity]. Qed.

Lemma trim_appended_words s :
  right_trim (appended true s) = join_words (split_words [] s) /\
  (forall cur, word cur ->
     right_trim (cur ++ appended false s) = join_words (split_words cur s)).
Proof.
  induction s as [|c r [IH0 IH1]]; simpl.
  - split; [reflexivity|]. intros cur [Hne Hall].
    rewrite app_nil_r, right_trim_word by assumption.
    destruct cur; [congruence | reflexivity].
  - unfold blank. destruct (c >? SPACE) eqn:Hc.
    + replace (c <=? SPACE) with false by (symmetry; apply Z.leb_gt; lia).
      assert (Hn : nonblank c) by (unfold nonblank; lia).
      split.
      * apply (IH1 [c]). split; [discriminate | now constructor].
      * intros cur [Hne Hall].
        replace (cur ++ c :: appended false r) with ((cur ++ [c]) ++ appended false r)
          by (now rewrite <- app_assoc).
        apply IH1. split.
        -- destruct cur; discriminate.
        -- apply Forall_app. split; [assumption | now constructor].
    + replace (c <=? SPACE) with true by (symmetry; apply Z.leb_le; lia).
      split; [exact IH0|]. intros cur [Hne Hall].
      destruct cur as [|a l] eqn:Ecur; [congruence|]. rewrite <- Ecur in *.
      destruct (appended true r) as [|x X] eqn:EX.
      * rewrite (appended_true_nil r EX). simpl.
        unfold right_trim. rewrite last_last, removelast_last, length_app. simpl.
        replace (Nat.eqb (length cur + 1) 0) with false by (symmetry; apply Nat.eqb_neq; lia).
        reflexivity.
      * assert (Hx : nonblank x) by (eapply appended_true_head; eassumption).
        replace (cur ++ SPACE :: x :: X) with ((cur ++ [SPACE]) ++ x :: X)
          by (now rewrite <- app_assoc).
        rewrite right_trim_app by discriminate.
        rewrite IH0, <- app_assoc.
        rewrite join_cons_nonnil; [reflexivity|].
        intros E. rewrite E in IH0. simpl in IH0.
        now apply (right_trim_head_nonblank x X Hx).
Qed.

Lemma normalize_spec text : ldb_command_normalize text = spec_normalize text.
Proof.
  unfold ldb_command_normalize, spec_normalize, chars.
  rewrite fold_appended. simpl. apply trim_appended_words.
Qed.


(** Derived facts *)
Lemma split_words_word s : forall cur, (cur = [] \/ word cur) -> Forall word (split_words cur s).
Proof.
  induction s as [|c r IH]; intros cur Hcur; simpl.
  - destruct cur; [constructor|]. destruct Hcur as [|H]; [discriminate|]. constructor; [assumption | constructor].
  - unfold blank. destruct (c <=? SPACE) eqn:Hc.
    + destruct cur.
      * apply IH. now left.
      * destruct Hcur as [|H]; [discriminate|]. constructor; [assumption|]. apply IH. now left.
    + apply IH. right. split.
      * destruct cur; discriminate.
      * apply Forall_app. split.
        -- destruct Hcur as [->|[_ H]]; [constructor | assumption].
        -- constructor; [unfold nonblank; lia | constructor].
Qed.

Lemma split_words_run w : Forall nonblank w -> forall cur rest,
  split_words cur (w ++ rest) = split_words (cur ++ w) rest.
Proof.
  induction 1 as [|c w Hc Hw IH]; intros cur rest; simpl.
  - now rewrite app_nil_r.
  - unfold blank. unfold nonblank in Hc.
    replace (c <=? SPACE) with false by (symmetry; apply Z.leb_gt; lia).
    rewrite IH, <- app_assoc. reflexivity.
Qed.

Lemma split_join ws : Forall word ws -> forall cur,
  split_words cur (join_words ws) =
  match ws with
  | [] => match cur with [] => [] | _ => [cur] end
  | w :: rest => (cur ++ w) :: rest
  end.
Proof.
  induction 1 as [|w rest [Hne Hw] Hrest IH]; intros cur; [reflexivity|].
  destruct rest as [|w' rest'].
  - simpl. rewrite <- (app_nil_r w) at 1. rewrite split_words_run by assumption. simpl.
    destruct (cur ++ w) eqn:E; [|reflexivity].
    apply app_eq_nil in E. destruct E as [_ E]. now apply Hne in E.
  - rewrite join_cons_nonnil by discriminate.
    rewrite split_words_run by assumption.
    change (split_words (cur ++ w) (SPACE :: join_words (w' :: rest')))
      with (match cur ++ w with
            | [] => split_words [] (join_words (w' :: rest'))
            | _ => (cur ++ w) :: split_words [] (join_words (w' :: rest'))
            end).
    destruct (cur ++ w) eqn:E;
      [apply app_eq_nil in E; destruct E as [_ E]; now apply Hne in E|].
    rewrite (IH []). reflexivity.
Qed.

Lemma join_words_chars ws : Forall word ws -> Forall (fun c => c >= SPACE) (join_words ws).
Proof.
  induction 1 as [|w rest [Hne Hw] Hrest IH]; [constructor|].
  assert (Hw' : Forall (fun c => c >= SPACE) w).
  { eapply Forall_impl; [|exact Hw]. unfold nonblank. intros; lia. }
  destruct rest; [exact Hw'|]. rewrite join_cons_nonnil by discriminate.
  apply Forall_app. split; [assumption|]. constructor; [unfold SPACE; lia | assumption].
Qed.

Lemma chars_nonzero s : Forall (fun c => c >= SPACE) s -> chars s = s.
Proof.
  unfold chars. induction 1 as [|c r Hc Hr IH]; [reflexivity|].
  simpl. unfold SPACE in Hc. replace (c =? 0) with false by (symmetry; apply Z.eqb_neq; lia).
  simpl. now rewrite IH.
Qed.

Lemma normalize_idempotent text :
  ldb_command_normalize (ldb_command_normalize text) = ldb_command_normalize text.
Proof.
  rewrite !normalize_spec. unfold spec_normalize.
  assert (Hws : Forall word (split_words [] (chars text)))
    by (apply split_words_word; now left).
  rewrite (chars_nonzero _ (join_words_chars _ Hws)).
  rewrite (split_join _ Hws []).
  destruct (split_words [] (chars text)); reflexivity.
Qed.

Lemma filter_join ws : Forall word ws ->
  filter (fun c => c >? SPACE) (join_words ws) = concat ws.
Proof.
  induction 1 as [|w rest [Hne Hw] Hrest IH]; [reflexivity|].
  assert (Hf : filter (fun c => c >? SPACE) w = w).
  { clear Hne. induction Hw as [|c w Hc Hw IHw]; [reflexivity|]. simpl.
    unfold nonblank in Hc. replace (c >? SPACE) with true by (symmetry; apply Z.gtb_lt; lia).
    now rewrite IHw. }
  destruct rest as [|w' rest'].
  - simpl. now rewrite app_nil_r.
  - rewrite join_cons_nonnil by discriminate.
    rewrite filter_app, Hf.
    change (filter (fun c => c >? SPACE) (SPACE :: join_words (w' :: rest')))
      with (filter (fun c => c >? SPACE) (join_words (w' :: rest'))).
    rewrite IH. reflexivity.
Qed.

Lemma concat_split s : forall cur,
  Forall nonblank cur ->
  concat (split_words cur s) = cur ++ filter (fun c => c >? SPACE) s.
Proof.
  induction s as [|c r IH]; intros cur Hcur; simpl.
  - destruct cur; simpl; now rewrite ?app_nil_r.
  - unfold blank. destruct (c <=? SPACE) eqn:Hc.
    + replace (c >? SPACE) with false by lia.
      destruct cur; [now apply IH|]. simpl. rewrite (IH []) by constructor. reflexivity.
    + replace (c >? SPACE) with true by (symmetry; apply Z.gtb_lt; lia).
      rewrite IH, <- app_assoc; [reflexivity|].
      apply Forall_app. split; [assumption|]. constructor; [unfold nonblank; lia | constructor].
Qed.

Lemma normalize_keeps_nonblank text :
  filter (fun c => c >? SPACE) (ldb_command_normalize text)
  = filter (fun c => c >? SPACE) (chars text).
Proof.
  rewrite normalize_spec. unfold spec_normalize.
  rewrite filter_join by (apply split_words_word; now left).
  now rewrite concat_split by constructor.
Qed.

Lemma join_words_hd ws : Forall word ws -> forall c, hd_error (join_words ws) = Some c -> nonblank c.
Proof.
  intros H c. inversion H as [|w rest [Hne Hw] Hrest]; subst; [discriminate|].
  destruct w as [|a w']; [congruence|].
  assert (E : hd_error (join_words ((a :: w') :: rest)) = Some a) by (destruct rest; reflexivity).
  rewrite E. intros [= <-]. now inversion Hw.
Qed.

Lemma join_words_last ws : Forall word ws -> join_words ws <> [] -> nonblank (last (join_words ws) 0).
Proof.
  induction 1 as [|w rest [Hne Hw] Hrest IH]; [simpl; congruence|]. intros _.
  destruct rest as [|w' rest'].
  - simpl. destruct (exists_last Hne) as (l & c & ->). rewrite last_last.
    rewrite Forall_forall in Hw. apply Hw. apply in_or_app. right. now left.
  - rewrite join_cons_nonnil by discriminate.
    assert (Hn : join_words (w' :: rest') <> []).
    { inversion Hrest as [|? ? [Hne' _] _]; subst. destruct w'; [congruence|]. destruct rest'; discriminate. }
    destruct (exists_last Hn) as (l & c & E). specialize (IH Hn). rewrite E in *.
    rewrite last_last in IH.
    replace (w ++ SPACE :: l ++ [c]) with ((w ++ SPACE :: l) ++ [c]) by (now rewrite <- app_assoc).
    now rewrite last_last.
Qed.

Lemma join_words_single_spaced ws : Forall word ws -> single_spaced (join_words ws) = true.
Proof.
  induction 1 as [|w rest [Hne Hw] Hrest IH]; [reflexivity|].
  assert (Hrun : forall tl, single_spaced tl = true ->
            (forall c, hd_error tl = Some c -> nonblank c) -> single_spaced (w ++ SPACE :: tl) = true).
  { intros tl Htl Hhd. clear Hne. induction Hw as [|a w Ha Hw IHw].
    - simpl. destruct tl as [|b tl']; [reflexivity|].
      specialize (Hhd b eq_refl). unfold nonblank in Hhd.
      replace (b =? SPACE) with false by (symmetry; apply Z.eqb_neq; lia).
      simpl in *. exact Htl.
    - unfold nonblank in Ha. simpl app.
      destruct (w ++ SPACE :: tl) eqn:E; [reflexivity|].
      simpl. replace (a =? SPACE) with false by (symmetry; apply Z.eqb_neq; lia).
      simpl. simpl in IHw. exact IHw. }
  destruct rest as [|w' rest'].
  - simpl. clear Hne Hrun. induction Hw as [|a w Ha Hw IHw]; [reflexivity|].
    destruct w; [reflexivity|]. simpl. unfold nonblank in Ha.
    replace (a =? SPACE) with false by (symmetry; apply Z.eqb_neq; lia). exact IHw.
  - rewrite join_cons_nonnil by discriminate. apply Hrun; [exact IH|].
    now apply join_words_hd.
Qed.

(** ** Sorting *)

Section SortingFacts.
Variable cmp : list Z -> list Z -> Z.

Lemma insert_sorted_perm x l : Permutation (x :: l) (insert_sorted cmp x l).
Proof.
  induction l as [|y r IH]; simpl; [reflexivity|].
  destruct (cmp x y <=? 0); [reflexivity|].
  rewrite perm_swap. now constructor.
Qed.

Lemma sort_elements_perm l : Permutation l (sort_elements cmp l).
Proof.
  induction l as [|x r IH]; simpl; [constructor|].
  rewrite <- insert_sorted_perm. now constructor.
Qed.

Hypothesis cmp_total : forall a b, cmp a b <= 0 \/ cmp b a <= 0.

Lemma insert_sorted_sorted x l :
  Sorted (cmp_le cmp) l -> Sorted (cmp_le cmp) (insert_sorted cmp x l).
Proof.
  induction 1 as [|y r Hr IH Hhd]; simpl.
  - repeat constructor.
  - destruct (cmp x y <=? 0) eqn:E.
    + constructor; [now constructor|]. constructor. unfold cmp_le. lia.
    + constructor; [exact IH|].
      assert (Hyx : cmp_le cmp y x).
      { unfold cmp_le. destruct (cmp_total x y); lia. }
      destruct r as [|z r']; simpl.
      * now constructor.
      * destruct (cmp x z <=? 0); constructor; [exact Hyx|].
        now inversion Hhd.
Qed.

Lemma sort_elements_sorted l : Sorted (cmp_le cmp) (sort_elements cmp l).
Proof.
  induction l as [|x r IH]; simpl; [constructor|].
  now apply insert_sorted_sorted.
Qed.
End SortingFacts.

Lemma elements_length nmemb size : forall base,
(nmemb * size <= length base)%nat ->
length (elements nmemb size base) = nmemb /\
Forall (fun e => length e = size) (elements nmemb size base).
Proof.
induction nmemb as [|n IH]; intros base Hlen; simpl; [split; constructor|].
simpl in Hlen.
destruct (IH (skipn size base)) as [Hl Hall].
{ rewrite length_skipn. lia. }
split; [now rewrite Hl|]. constructor; [|exact Hall].
rewrite length_firstn. lia.
Qed.

Lemma elements_concat size (L : list (list Z)) rest :
Forall (fun e => length e = size) L ->
elements (length L) size (concat L ++ rest) = L.
Proof.
induction 1 as [|e L He HL IH]; [reflexivity|].
subst size. simpl. rewrite <- app_assoc.
rewrite firstn_app, firstn_all, Nat.sub_diag, firstn_O, app_nil_r.
rewrite skipn_app, skipn_all, Nat.sub_diag. simpl.
now rewrite IH.
Qed.

Lemma elements_sorted_array cmp base nmemb size :
0 <= nmemb -> 0 < size -> nmemb * size <= len base ->
elements (Z.to_nat nmemb) (Z.to_nat size) (sorted_array cmp base nmemb size)
= sort_elements cmp (elements (Z.to_nat nmemb) (Z.to_nat size) base).
Proof.
intros Hn Hs Hlen. unfold sorted_array.
set (n := Z.to_nat nmemb). set (k := Z.to_nat size).
assert (Hnat : (n * k <= length base)%nat).
{ unfold len in Hlen. subst n k. nia. }
destruct (elements_length n k base Hnat) as [Hl Hall].
set (L := sort_elements cmp (elements n k base)).
assert (HP : Permutation (elements n k base) L) by apply sort_elements_perm.
assert (HlL : length L = n) by (rewrite <- (Permutation_length HP); exact Hl).
rewrite <- HlL at 1. apply elements_concat.
eapply Permutation_Forall; eassumption.
Qed.

(** ** The commands *)

Ltac console_unfold :=
  cbv beta iota zeta delta
    [ldb_command_delete ldb_command_collate ldb_command_merge
     ldb_command_unlink_list ldb_command_insert ldb_command_select
     run bind ret emit lift guard printf ldb_lock ldb_unlock
     ldb_read_cfg ldb_collate ldb_open ldb_node_write ldb_list_unlink
     fclose ldb_fetch_recordset qsort c_div app fst snd] in *.

Ltac split_if :=
  match goal with
  | |- context [if ?b then _ else _] => destruct b eqn:?
  | H : context [if ?b then _ else _] |- _ => destruct b eqn:?
  end.

Lemma collate_outcome command :
  let dbtable := ldb_extract_word 2 command in
  let max := atoi (ldb_extract_word 4 command) in
  let t := stored_cfg dbtable in
  run (ldb_command_collate command) =
  Ok (if ldb_valid_table dbtable
      then [EvLock dbtable; EvReadCfg dbtable; EvReadCfg dbtable;
            if negb (rec_ln t =? 0) && negb (rec_ln t =? max)
            then EvPrintf (E076_fixed_length (rec_ln t))
            else if max <? key_ln t then EvPrintf E076_max_below_key
            else EvCollate t (set_key_ln LDB_KEY_LN (set_tmp true t)) max
                   false None 0;
            EvUnlock dbtable]
      else [EvUnlock dbtable]).
Proof.
  intros dbtable max t. subst dbtable max t. console_unfold.
  repeat split_if; reflexivity.
Qed.

Lemma merge_outcome command :
  let dbtable := ldb_extract_word 2 command in
  let totable := ldb_extract_word 4 command in
  let max := atoi (ldb_extract_word 6 command) in
  let t := stored_cfg dbtable in
  let o := stored_cfg totable in
  run (ldb_command_merge command) =
  Ok (if ldb_valid_table dbtable
      then [EvLock dbtable; EvReadCfg dbtable; EvReadCfg totable;
            if negb (rec_ln t =? 0) && negb (rec_ln t =? max)
            then EvPrintf (E076_fixed_length (rec_ln t))
            else if max <? key_ln t then EvPrintf E076_max_below_key
            else if negb (key_ln t =? key_ln o)
            then EvPrintf E076_merge_key_length
            else if negb (rec_ln t =? rec_ln o)
            then EvPrintf E076_merge_record_type
            else EvCollate t (set_key_ln LDB_KEY_LN (set_tmp false o)) max
                   true None 0;
            EvUnlock dbtable]
      else [EvUnlock dbtable]).
Proof.
  intros dbtable totable max t o. subst dbtable totable max t o.
  console_unfold. repeat split_if; reflexivity.
Qed.

Lemma delete_outcome command :
  let dbtable := ldb_extract_word 3 command in
  let max := atoi (ldb_extract_word 5 command) in
  let t := stored_cfg dbtable in
  run (ldb_command_delete command) =
  if ldb_valid_table dbtable then
    match fetch_keys (keys_start command) (key_ln t) with
    | Ok (keys, keys_ln) =>
        if key_ln t >? keys_ln then
          Ok [EvLock dbtable; EvReadCfg dbtable; EvReadCfg dbtable;
              EvPrintf (E076_keys (key_ln t)); EvUnlock dbtable]
        else if negb (rec_ln t =? 0) && negb (rec_ln t =? max) then
          Ok [EvLock dbtable; EvReadCfg dbtable; EvReadCfg dbtable;
              EvPrintf (E076_fixed_length (rec_ln t)); EvUnlock dbtable]
        else if max <? key_ln t then
          Ok [EvLock dbtable; EvReadCfg dbtable; EvReadCfg dbtable;
              EvPrintf E076_max_below_key; EvUnlock dbtable]
        else if key_ln t =? 0 then Undefined
        else
          let nmemb := Z.quot keys_ln (key_ln t) in
          if (0 <=? nmemb) && (0 <? key_ln t)
             && (nmemb * key_ln t <=? len keys)
          then
            Ok [EvLock dbtable; EvReadCfg dbtable; EvReadCfg dbtable;
                EvQsort nmemb (key_ln t); EvPrintf (Removing_keys nmemb);
                EvCollate t (set_key_ln LDB_KEY_LN (set_tmp true t)) max
                  false
                  (Some (sorted_array ldb_collate_cmp keys nmemb (key_ln t)))
                  keys_ln;
                EvUnlock dbtable]
          else Undefined
    | Undefined => Undefined
    | Diverges => Diverges
    end
  else Ok [EvUnlock dbtable].
Proof.
  intros dbtable max t. subst dbtable max t. console_unfold.
  destruct (ldb_valid_table _); [|reflexivity].
  destruct (fetch_keys _ _) as [[keys keys_ln]| |]; try reflexivity.
  console_unfold. repeat split_if; reflexivity.
Qed.

Lemma unlink_list_outcome command :
  let dbtable := ldb_extract_word 4 command in
  let key := ldb_extract_word 6 command in
  let t := stored_cfg dbtable in
  let keybin := ldb_hex_to_bin key (strlen key) in
  run (ldb_command_unlink_list command) =
  Ok (if ldb_valid_table dbtable then
        if negb (strlen key =? 8) then [EvPrintf E075_key_not_32_bits]
        else [EvReadCfg dbtable; EvOpen t keybin; EvListUnlink keybin;
              EvFclose]
      else []).
Proof.
  intros dbtable key t keybin. subst dbtable key t keybin.
  console_unfold. repeat split_if; reflexivity.
Qed.

Lemma insert_outcome command type :
  let dbtable := ldb_extract_word 3 command in
  let key := ldb_extract_word 5 command in
  let data := ldb_extract_word 7 command in
  let t := stored_cfg dbtable in
  let keybin := ldb_hex_to_bin key (strlen key) in
  run (ldb_command_insert command type) =
  Ok (if ldb_valid_table dbtable then
        if strlen key <? 8 then [EvPrintf E071_key_too_short]
        else [EvReadCfg dbtable; EvOpen t keybin;
              EvNodeWrite t keybin (fst (inserted_record key data type))
                (snd (inserted_record key data type)) 0;
              EvFclose]
      else []).
Proof.
  intros dbtable key data t keybin. subst dbtable key data t keybin.
  unfold inserted_record. console_unfold.
  destruct type; repeat split_if; reflexivity.
Qed.

Lemma select_outcome command format :
  let dbtable := ldb_extract_word 3 command in
  let key := ldb_extract_word 5 command in
  let t := stored_cfg dbtable in
  let keybin := ldb_hex_to_bin key (strlen key) in
  let width := if rec_ln t =? 0 then 16 else rec_ln t in
  let handler :=
    match format with
    | HEX => ldb_hexprint_width width
    | ASCII => ldb_asciiprint
    | CSV => ldb_csvprint (atoi (ldb_extract_word 8 command))
    end in
  run (ldb_command_select command format) =
  Ok (if ldb_valid_table dbtable then
        if strlen key <? 8 then [EvPrintf E071_key_too_short]
        else if negb (strlen key / 2 =? key_ln t)
                && negb (strlen key / 2 =? LDB_KEY_LN)
        then [EvReadCfg dbtable; EvPrintf E073_key_length_invalid]
        else [EvReadCfg dbtable;
              EvFetchRecordset t keybin (strlen key / 2 =? 4) handler]
      else []).
Proof.
  intros dbtable key t keybin width handler.
  subst dbtable key t keybin width handler. console_unfold.
  destruct format; repeat split_if; reflexivity.
Qed.

Ltac bool_cases :=
  repeat match goal with
         | H : _ && _ = true |- _ => apply andb_true_iff in H; destruct H
         | H : _ || _ = false |- _ => apply orb_false_iff in H; destruct H
         | H : negb _ = true |- _ => apply negb_true_iff in H
         | H : negb _ = false |- _ => apply negb_false_iff in H
         end.

(** fetch_keys comes to an end for every key length of at least one
    byte: the fuel of the model is never the reason for its result. *)
Lemma fetch_keys_loop_ends key_ln_ keys : 1 <= key_ln_ ->
  forall fuel pos keyblob size,
    0 < Z.of_nat fuel -> strlen keys - pos < Z.of_nat fuel ->
    fetch_keys_loop fuel keys (strlen keys) key_ln_ pos
      keyblob size <> Diverges.
Proof.
  intros Hk. induction fuel as [|fuel IH]; intros pos keyblob size Hpos Hfuel;
    [simpl in Hpos; lia|].
  simpl. unfold rbind, guard, store, load, char_at.
  repeat split_if; try discriminate; apply IH; bool_cases; lia.
Qed.

Lemma fetch_keys_ends keys key_ln_ :
  1 <= key_ln_ -> fetch_keys keys key_ln_ <> Diverges.
Proof.
  intros Hk. destruct keys as [keys|]; [|discriminate]. unfold fetch_keys.
  apply fetch_keys_loop_ends; [assumption| |]; unfold strlen; lia.
Qed.

Lemma delete_ends command :
  1 <= key_ln (stored_cfg (ldb_extract_word 3 command)) ->
  run (ldb_command_delete command) <> Diverges.
Proof.
  intros Hk. pose proof (delete_outcome command) as Hrun. cbv zeta in Hrun.
  rewrite Hrun. pose proof (fetch_keys_ends (keys_start command) _ Hk) as He.
  destruct (ldb_valid_table _); [|discriminate].
  destruct (fetch_keys _ _) as [[keys keys_ln]| |];
    [|discriminate|congruence].
  repeat split_if; discriminate.
Qed.

(** C1 (amended). Collate, delete and merge on a valid table: when the
    table has a fixed record length that differs from max, or max is below
    the key length, an E076 line is printed and ldb_collate is not called.
    Collate and merge print the length-mismatch line; delete prints it as
    well unless its key list was rejected, and then it prints the
    invalid-keys line.  ldb_collate is called only when both checks pass.
    (The loop of fetch_keys ends for keys of at least one byte.) *)
Theorem length_checks_guard_collate :
  (forall command,
      ldb_valid_table (ldb_extract_word 2 command) = true ->
      exists tr, run (ldb_command_collate command) = Ok tr /\
        (length_checks_pass (stored_cfg (ldb_extract_word 2 command))
           (atoi (ldb_extract_word 4 command)) = false ->
         prints length_mismatch tr = true /\ invokes_collate tr = false) /\
        (invokes_collate tr = true ->
         length_checks_pass (stored_cfg (ldb_extract_word 2 command))
           (atoi (ldb_extract_word 4 command)) = true))
  /\
  (forall command,
      ldb_valid_table (ldb_extract_word 2 command) = true ->
      exists tr, run (ldb_command_merge command) = Ok tr /\
        (length_checks_pass (stored_cfg (ldb_extract_word 2 command))
           (atoi (ldb_extract_word 6 command)) = false ->
         prints length_mismatch tr = true /\ invokes_collate tr = false) /\
        (invokes_collate tr = true ->
         length_checks_pass (stored_cfg (ldb_extract_word 2 command))
           (atoi (ldb_extract_word 6 command)) = true))
  /\
  (forall command tr,
      ldb_valid_table (ldb_extract_word 3 command) = true ->
      run (ldb_command_delete command) = Ok tr ->
      (length_checks_pass (stored_cfg (ldb_extract_word 3 command))
         (atoi (ldb_extract_word 5 command)) = false ->
       exists keys keys_ln,
         fetch_keys (keys_start command)
           (key_ln (stored_cfg (ldb_extract_word 3 command)))
         = Ok (keys, keys_ln) /\
         (if key_ln (stored_cfg (ldb_extract_word 3 command)) >? keys_ln
          then prints invalid_keys tr = true
          else prints length_mismatch tr = true) /\
         prints is_E076 tr = true /\
         invokes_collate tr = false) /\
      (invokes_collate tr = true ->
       length_checks_pass (stored_cfg (ldb_extract_word 3 command))
         (atoi (ldb_extract_word 5 command)) = true))
  /\
  (forall command,
      1 <= key_ln (stored_cfg (ldb_extract_word 3 command)) ->
      run (ldb_command_delete command) <> Diverges).
Proof.
  unfold length_checks_pass. split; [|split; [|split; [|exact delete_ends]]].
  - intros command Hvalid. eexists. split; [apply collate_outcome|].
    cbv zeta. rewrite Hvalid.
    split; [intros Hfail | intros Hcall];
      repeat split_if; repeat split; try reflexivity; discriminate.
  - intros command Hvalid. eexists. split; [apply merge_outcome|].
    cbv zeta. rewrite Hvalid.
    split; [intros Hfail | intros Hcall];
      repeat split_if; repeat split; try reflexivity; discriminate.
  - intros command tr Hvalid Hok. pose proof (delete_outcome command) as Hrun.
    cbv zeta in Hrun. rewrite Hvalid, Hok in Hrun.
    destruct (fetch_keys _ _) as [[keys keys_ln]| |]; try discriminate.
    split; [intros Hfail; exists keys, keys_ln; split; [reflexivity|]
           | intros Hcall];
      repeat split_if; try discriminate; inversion Hrun; subst tr;
      repeat split; try reflexivity; discriminate.
Qed.

(** C3 (amended). Collate, delete and merge take the lock of the table
    named first in the command before they read any table configuration,
    touch tables only while it is held, and release it after ldb_collate,
    which owns the sector handles, has returned.  (The loop of fetch_keys
    ends for keys of at least one byte.) *)
Theorem maintenance_commands_hold_lock :
  (forall command,
      exists tr, run (ldb_command_collate command) = Ok tr /\
        lock_discipline false tr = true /\
        (ldb_valid_table (ldb_extract_word 2 command) = true ->
         exists body,
           tr = EvLock (ldb_extract_word 2 command)
                :: EvReadCfg (ldb_extract_word 2 command)
                :: body ++ [EvUnlock (ldb_extract_word 2 command)] /\
           lock_free body = true))
  /\
  (forall command,
      exists tr, run (ldb_command_merge command) = Ok tr /\
        lock_discipline false tr = true /\
        (ldb_valid_table (ldb_extract_word 2 command) = true ->
         exists body,
           tr = EvLock (ldb_extract_word 2 command)
                :: EvReadCfg (ldb_extract_word 2 command)
                :: body ++ [EvUnlock (ldb_extract_word 2 command)] /\
           lock_free body = true))
  /\
  (forall command tr,
      run (ldb_command_delete command) = Ok tr ->
      lock_discipline false tr = true /\
      (ldb_valid_table (ldb_extract_word 3 command) = true ->
       exists body,
         tr = EvLock (ldb_extract_word 3 command)
              :: EvReadCfg (ldb_extract_word 3 command)
              :: body ++ [EvUnlock (ldb_extract_word 3 command)] /\
         lock_free body = true))
  /\
  (forall command,
      1 <= key_ln (stored_cfg (ldb_extract_word 3 command)) ->
      run (ldb_command_delete command) <> Diverges).
Proof.
  split; [|split; [|split; [|exact delete_ends]]].
  - intros command. eexists. split; [apply collate_outcome|]. cbv zeta.
    destruct (ldb_valid_table _).
    + split; [repeat split_if; reflexivity|]. intros _.
      eexists [_; _]. split; [reflexivity|]. repeat split_if; reflexivity.
    + split; [reflexivity | discriminate].
  - intros command. eexists. split; [apply merge_outcome|]. cbv zeta.
    destruct (ldb_valid_table _).
    + split; [repeat split_if; reflexivity|]. intros _.
      eexists [_; _]. split; [reflexivity|]. repeat split_if; reflexivity.
    + split; [reflexivity | discriminate].
  - intros command tr Hok. pose proof (delete_outcome command) as Hrun.
    cbv zeta in Hrun. rewrite Hok in Hrun.
    destruct (ldb_valid_table _).
    + destruct (fetch_keys _ _) as [[keys keys_ln]| |]; try discriminate.
      repeat split_if; try discriminate; inversion Hrun; subst tr;
        (split; [reflexivity|]); intros _;
        first [ eexists [_; _]; split; reflexivity
              | eexists [_; _; _; _]; split; reflexivity ].
    + inversion Hrun. split; [reflexivity | discriminate].
Qed.

(** C4 (amended). Insert on a valid table: a key that decodes to fewer
    than 4 bytes (fewer than 8 hex digits) is rejected with E071 and
    nothing else happens; a key of at least 4 bytes is accepted and its
    record handed to ldb_node_write, whatever the table's key length. *)
Theorem insert_checks_key_against_32_bits :
  forall command type,
    ldb_valid_table (ldb_extract_word 3 command) = true ->
    exists tr, run (ldb_command_insert command type) = Ok tr /\
      (strlen (ldb_extract_word 5 command) / 2 < LDB_KEY_LN ->
       tr = [EvPrintf E071_key_too_short]) /\
      (LDB_KEY_LN <= strlen (ldb_extract_word 5 command) / 2 ->
       writes_record tr = true /\ prints any_message tr = false).
Proof.
  intros command type Hvalid. eexists. split; [apply insert_outcome|].
  cbv zeta. rewrite Hvalid. unfold LDB_KEY_LN.
  destruct (strlen (ldb_extract_word 5 command) <? 8) eqn:E.
  - split; [reflexivity|]. intros H. exfalso.
    apply Z.ltb_lt in E.
    assert (strlen (ldb_extract_word 5 command) / 2 < 4)
      by (apply Z.div_lt_upper_bound; lia). lia.
  - split; [|intros _; split; reflexivity]. intros H. exfalso.
    apply Z.ltb_ge in E.
    assert (4 <= strlen (ldb_extract_word 5 command) / 2)
      by (apply Z.div_le_lower_bound; lia). lia.
Qed.

(** C5 (amended). Merge on a valid source table: when the two tables
    differ in key length or in fixed record length, ldb_collate is not
    called, and the incompatible-tables line is printed provided the
    max-length checks pass (when they fail the length-mismatch line is
    printed instead); when the configurations are equal and the
    max-length checks pass, ldb_collate is called with erase-source
    true. *)
Theorem merge_requires_equal_configuration :
  forall command,
    ldb_valid_table (ldb_extract_word 2 command) = true ->
    exists tr, run (ldb_command_merge command) = Ok tr /\
      ((key_ln (stored_cfg (ldb_extract_word 2 command))
          <> key_ln (stored_cfg (ldb_extract_word 4 command)) \/
        rec_ln (stored_cfg (ldb_extract_word 2 command))
          <> rec_ln (stored_cfg (ldb_extract_word 4 command))) ->
       invokes_collate tr = false /\
       (if length_checks_pass (stored_cfg (ldb_extract_word 2 command))
             (atoi (ldb_extract_word 6 command))
        then prints incompatible_tables tr = true
        else prints length_mismatch tr = true)) /\
      (key_ln (stored_cfg (ldb_extract_word 2 command))
         = key_ln (stored_cfg (ldb_extract_word 4 command)) ->
       rec_ln (stored_cfg (ldb_extract_word 2 command))
         = rec_ln (stored_cfg (ldb_extract_word 4 command)) ->
       length_checks_pass (stored_cfg (ldb_extract_word 2 command))
         (atoi (ldb_extract_word 6 command)) = true ->
       In (EvCollate (stored_cfg (ldb_extract_word 2 command))
             (set_key_ln LDB_KEY_LN
                (set_tmp false (stored_cfg (ldb_extract_word 4 command))))
             (atoi (ldb_extract_word 6 command)) true None 0) tr) /\
      (forall table out_table max erase keys keys_ln,
          In (EvCollate table out_table max erase keys keys_ln) tr ->
          erase = true).
Proof.
  intros command Hvalid. eexists. split; [apply merge_outcome|].
  cbv zeta. rewrite Hvalid. unfold length_checks_pass.
  split; [|split].
  - intros Hdiff.
    repeat split_if; simpl; repeat split; try reflexivity; try discriminate;
      bool_cases; lia.
  - intros Hk Hr Hpass.
    repeat split_if; simpl in *; try discriminate; bool_cases; try lia.
    do 3 right. left. reflexivity.
  - intros table out_table max erase keys keys_ln Hin.
    repeat split_if; simpl in Hin;
      repeat (destruct Hin as [Hin|Hin]; try discriminate; try contradiction);
      now inversion Hin.
Qed.

(** C6 (amended). Select on a valid table: a key of fewer than 4 bytes is
    answered with E071 and nothing is fetched; a key of at least 4 bytes
    whose length is neither the table's key length nor 4 is answered with
    E073 and nothing is fetched; otherwise ldb_fetch_recordset is
    called. *)
Theorem select_checks_key_length :
  forall command format,
    ldb_valid_table (ldb_extract_word 3 command) = true ->
    exists tr, run (ldb_command_select command format) = Ok tr /\
      (strlen (ldb_extract_word 5 command) / 2 < 4 ->
       prints is_E071 tr = true /\ fetches tr = false) /\
      (4 <= strlen (ldb_extract_word 5 command) / 2 ->
       strlen (ldb_extract_word 5 command) / 2
         <> key_ln (stored_cfg (ldb_extract_word 3 command)) ->
       strlen (ldb_extract_word 5 command) / 2 <> 4 ->
       prints is_E073 tr = true /\ fetches tr = false) /\
      (4 <= strlen (ldb_extract_word 5 command) / 2 ->
       strlen (ldb_extract_word 5 command) / 2
         = key_ln (stored_cfg (ldb_extract_word 3 command)) \/
       strlen (ldb_extract_word 5 command) / 2 = 4 ->
       fetches tr = true /\ prints any_message tr = false).
Proof.
  intros command format Hvalid. eexists. split; [apply select_outcome|].
  cbv zeta. rewrite Hvalid. unfold LDB_KEY_LN.
  set (n := strlen (ldb_extract_word 5 command)).
  assert (Hdiv : (n <? 8) = true <-> n / 2 < 4).
  { rewrite Z.ltb_lt. split; intros H.
    - apply Z.div_lt_upper_bound; lia.
    - destruct (Z.lt_ge_cases n 8) as [|H8]; [assumption|].
      assert (4 <= n / 2) by (apply Z.div_le_lower_bound; lia). lia. }
  destruct (n <? 8) eqn:E.
  - assert (n / 2 < 4) by (now apply Hdiv).
    repeat split; try reflexivity; intros; lia.
  - assert (~ n / 2 < 4) by (intros H; apply Hdiv in H; discriminate).
    split; [intros; lia|].
    split; intros H4 H5; [intros H6|];
      split_if; repeat split; try reflexivity; bool_cases; lia.
Qed.

(** C7 (amended). Every fetch of a select command asks for short matching
    exactly when the key decodes to 4 bytes; a key of the table's full key
    length is fetched with exact matching when that length is not 4. *)
Theorem select_short_match_iff_four_bytes :
  forall command format tr table keybin skip_subkey handler,
    run (ldb_command_select command format) = Ok tr ->
    In (EvFetchRecordset table keybin skip_subkey handler) tr ->
    (skip_subkey = true <-> strlen (ldb_extract_word 5 command) / 2 = 4) /\
    (strlen (ldb_extract_word 5 command) / 2
       = key_ln (stored_cfg (ldb_extract_word 3 command)) ->
     key_ln (stored_cfg (ldb_extract_word 3 command)) <> 4 ->
     skip_subkey = false).
Proof.
  intros command format tr table keybin skip_subkey handler Hok Hin.
  pose proof (select_outcome command format) as Hrun. cbv zeta in Hrun.
  rewrite Hok in Hrun. inversion Hrun as [Htr]. clear Hrun Hok.
  assert (Hskip : skip_subkey = (strlen (ldb_extract_word 5 command) / 2 =? 4)).
  { subst tr. repeat split_if; simpl in Hin;
      repeat (destruct Hin as [Hin|Hin]; try discriminate; try contradiction);
      now inversion Hin. }
  rewrite Hskip. split.
  - apply Z.eqb_eq.
  - intros Hfull Hne. apply Z.eqb_neq. lia.
Qed.

(** C8. An accepted delete sorts the decoded keys with ldb_collate_cmp
    before it calls ldb_collate: the array handed over is the qsort result,
    a permutation of the decoded keys that is in ldb_collate_cmp order
    whenever the comparator is total.  Delete and collate call ldb_collate
    with erase-source false and, as destination, the source's configuration
    marked temporary (tmp = true).  (The loop of fetch_keys ends for keys
    of at least one byte.) *)
Theorem delete_sorts_keys_then_collates_into_tmp :
  (forall command tr,
      run (ldb_command_delete command) = Ok tr ->
      invokes_collate tr = true ->
      exists keyblob keys_ln nmemb sorted,
        fetch_keys (keys_start command)
          (key_ln (stored_cfg (ldb_extract_word 3 command)))
        = Ok (keyblob, keys_ln) /\
        nmemb = Z.quot keys_ln
                  (key_ln (stored_cfg (ldb_extract_word 3 command))) /\
        sorted = sorted_array ldb_collate_cmp keyblob nmemb
                   (key_ln (stored_cfg (ldb_extract_word 3 command))) /\
        tr = [EvLock (ldb_extract_word 3 command);
              EvReadCfg (ldb_extract_word 3 command);
              EvReadCfg (ldb_extract_word 3 command);
              EvQsort nmemb
                (key_ln (stored_cfg (ldb_extract_word 3 command)));
              EvPrintf (Removing_keys nmemb);
              EvCollate (stored_cfg (ldb_extract_word 3 command))
                (set_key_ln LDB_KEY_LN
                   (set_tmp true (stored_cfg (ldb_extract_word 3 command))))
                (atoi (ldb_extract_word 5 command)) false (Some sorted)
                keys_ln;
              EvUnlock (ldb_extract_word 3 command)] /\
        tmp (set_key_ln LDB_KEY_LN
               (set_tmp true (stored_cfg (ldb_extract_word 3 command))))
        = true /\
        Permutation
          (elements (Z.to_nat nmemb)
             (Z.to_nat (key_ln (stored_cfg (ldb_extract_word 3 command))))
             keyblob)
          (elements (Z.to_nat nmemb)
             (Z.to_nat (key_ln (stored_cfg (ldb_extract_word 3 command))))
             sorted) /\
        ((forall a b, ldb_collate_cmp a b <= 0 \/ ldb_collate_cmp b a <= 0) ->
         Sorted (cmp_le ldb_collate_cmp)
           (elements (Z.to_nat nmemb)
              (Z.to_nat (key_ln (stored_cfg (ldb_extract_word 3 command))))
              sorted)))
  /\
  (forall command tr,
      run (ldb_command_collate command) = Ok tr ->
      invokes_collate tr = true ->
      tr = [EvLock (ldb_extract_word 2 command);
            EvReadCfg (ldb_extract_word 2 command);
            EvReadCfg (ldb_extract_word 2 command);
            EvCollate (stored_cfg (ldb_extract_word 2 command))
              (set_key_ln LDB_KEY_LN
                 (set_tmp true (stored_cfg (ldb_extract_word 2 command))))
              (atoi (ldb_extract_word 4 command)) false None 0;
            EvUnlock (ldb_extract_word 2 command)] /\
      tmp (set_key_ln LDB_KEY_LN
             (set_tmp true (stored_cfg (ldb_extract_word 2 command))))
      = true)
  /\
  (forall command,
      1 <= key_ln (stored_cfg (ldb_extract_word 3 command)) ->
      run (ldb_command_delete command) <> Diverges).
Proof.
  split; [|split; [|exact delete_ends]].
  - intros command tr Hok Hcall.
    pose proof (delete_outcome command) as Hrun. cbv zeta in Hrun.
    rewrite Hok in Hrun.
    destruct (ldb_valid_table _);
      [|inversion Hrun; subst tr; discriminate].
    destruct (fetch_keys _ _) as [[keyblob keys_ln]| |]; try discriminate.
    exists keyblob, keys_ln. do 2 eexists.
    split; [reflexivity|]. split; [reflexivity|]. split; [reflexivity|].
    repeat split_if; try discriminate; inversion Hrun; subst tr;
      try discriminate.
    bool_cases.
    assert (Hel := elements_sorted_array ldb_collate_cmp keyblob
              (Z.quot keys_ln (key_ln (stored_cfg (ldb_extract_word 3 command))))
              (key_ln (stored_cfg (ldb_extract_word 3 command)))
              ltac:(lia) ltac:(lia) ltac:(lia)).
    split; [reflexivity|]. split; [reflexivity|]. rewrite Hel. split.
    + apply sort_elements_perm.
    + intros Htotal. now apply sort_elements_sorted.
  - intros command tr Hok Hcall.
    pose proof (collate_outcome command) as Hrun. cbv zeta in Hrun.
    rewrite Hok in Hrun. inversion Hrun as [Htr]. clear Hrun.
    split; [|reflexivity].
    repeat split_if; subst tr; try discriminate. reflexivity.
Qed.

(** Insert and unlink-list never take the lock. *)
Lemma insert_and_unlink_take_no_lock command type :
  (exists tr, run (ldb_command_insert command type) = Ok tr /\
     existsb is_lock tr = false) /\
  (exists tr, run (ldb_command_unlink_list command) = Ok tr /\
     existsb is_lock tr = false).
Proof.
  split.
  - eexists. split; [apply insert_outcome|]. cbv zeta.
    repeat split_if; reflexivity.
  - eexists. split; [apply unlink_list_outcome|]. cbv zeta.
    repeat split_if; reflexivity.
Qed.

(** The ASCII path of insert builds the record the way the format asks:
    total length, payload length, payload. *)
Lemma chars_length s : length (chars s) = strlen_nat s.
Proof.
  unfold chars. apply firstn_length_le.
  induction s as [|c r IH]; simpl; [lia|]. destruct (c =? 0); simpl; lia.
Qed.

Lemma insert_ascii_record key data :
  strlen data + 2 < 65536 ->
  inserted_record key data INSERT_ASCII =
  ([fst (uint16_write (strlen data + 2)); snd (uint16_write (strlen data + 2));
    fst (uint16_write (strlen data)); snd (uint16_write (strlen data))]
   ++ chars data,
   strlen data + 4).
Proof.
  intros Hsmall. unfold inserted_record, record_header, uint16, uint32. simpl.
  assert (H0 : 0 <= strlen data) by (unfold strlen; lia).
  rewrite (Z.mod_small (strlen data) 4294967296) by lia.
  rewrite (Z.mod_small (strlen data) 65536) by lia.
  rewrite (Z.mod_small (strlen data + 2) 65536) by lia.
  rewrite (Z.mod_small (strlen data + 4) 4294967296) by lia.
  f_equal. do 4 f_equal.
  rewrite firstn_all2 by (rewrite chars_length; unfold strlen; lia).
  rewrite skipn_all2 by (rewrite chars_length; unfold strlen; lia).
  apply app_nil_r.
Qed.

(** The hex path hands over the decoded bytes, not the buffer that got the
    header, and decodes as many digits as the key has. *)
Lemma insert_hex_record key data :
  fst (inserted_record key data INSERT_HEX) = ldb_hex_to_bin data (strlen key).
Proof. reflexivity. Qed.


(** ** valid_hex_ln: the digits it accepts *)

Lemma valid_hex_loop_spec n : forall str,
  valid_hex_loop n str = true <->
  (n <= length str)%nat /\ Forall (fun h => lower_hex h = true) (firstn n str).
Proof.
  induction n as [|n IH]; intros str; simpl.
  - split; [intros _; split; [lia | constructor] | reflexivity].
  - destruct str as [|h r]; simpl.
    + split; [discriminate | intros [H _]; lia].
    + unfold lower_hex at 1.
      destruct ((h <? 48) || (h >? 57) && (h <? 97) || (h >? 102)) eqn:E.
      * split; [discriminate|]. intros [_ H]. inversion H as [|? ? Hh _]; subst.
        unfold lower_hex in Hh. lia.
      * rewrite IH. split.
        -- intros [Hl Hall]. split; [lia|]. constructor; [|exact Hall].
           unfold lower_hex. lia.
        -- intros [Hl Hall]. split; [lia|]. now inversion Hall.
Qed.

(** ** fetch_keys: what an accepted key list looks like *)







Lemma chars_nth_end s : nth (strlen_nat s) (chars s) 0 = 0.
Proof. apply nth_overflow. rewrite chars_length. lia. Qed.

Lemma fetch_keys_loop_separators keys key_ln_ :
  forall fuel pos keyblob size,
    0 <= pos <= strlen keys ->
    (forall i, pos <= i < strlen keys ->
       nth (Z.to_nat i) (chars keys) 0 = SPACE \/
       nth (Z.to_nat i) (chars keys) 0 = COMMA) ->
    strlen keys - pos < Z.of_nat fuel ->
    fetch_keys_loop fuel keys (strlen keys) key_ln_ pos keyblob size
    = Ok (keyblob, size).
Proof.
  induction fuel as [|fuel IH]; intros pos keyblob size Hpos Hsep Hfuel;
    [lia|].
  simpl. unfold rbind, char_at.
  replace ((0 <=? pos) && (pos <=? strlen keys)) with true by lia.
  destruct (Z.eq_dec pos (strlen keys)) as [->|Hne].
  - unfold strlen at 1. rewrite Nat2Z.id, chars_nth_end. simpl.
    reflexivity.
  - destruct (Hsep pos ltac:(lia)) as [E|E]; rewrite E;
      (replace (pos <? strlen keys) with true by lia); simpl;
      apply IH; try lia; intros i Hi; apply Hsep; lia.
Qed.

(** X7. A delete on a valid table with keys of at least one byte, whose
    key list holds nothing but commas and spaces, is refused with the E076
    keys line: nothing is sorted and ldb_collate is not called. *)
Theorem delete_rejects_empty_key_list : forall command keys,
  ldb_valid_table (ldb_extract_word 3 command) = true ->
  1 <= key_ln (stored_cfg (ldb_extract_word 3 command)) ->
  keys_start command = Some keys ->
  Forall (fun c => c = SPACE \/ c = COMMA) (chars keys) ->
  fetch_keys (Some keys) (key_ln (stored_cfg (ldb_extract_word 3 command)))
  = Ok (calloc (strlen keys / 2), 0) /\
  run (ldb_command_delete command)
  = Ok [EvLock (ldb_extract_word 3 command);
        EvReadCfg (ldb_extract_word 3 command);
        EvReadCfg (ldb_extract_word 3 command);
        EvPrintf (E076_keys (key_ln (stored_cfg (ldb_extract_word 3 command))));
        EvUnlock (ldb_extract_word 3 command)].
Proof.
  intros command keys Hvalid Hk Hstart Hsep.
  assert (Hfetch : fetch_keys (Some keys)
                     (key_ln (stored_cfg (ldb_extract_word 3 command)))
                   = Ok (calloc (strlen keys / 2), 0)).
  { unfold fetch_keys. apply fetch_keys_loop_separators.
    - unfold strlen. lia.
    - intros i Hi. rewrite Forall_forall in Hsep. apply Hsep.
      apply nth_In. rewrite chars_length. unfold strlen in Hi. lia.
    - unfold strlen. lia. }
  split; [exact Hfetch|].
  pose proof (delete_outcome command) as Hrun. cbv zeta in Hrun.
  rewrite Hvalid, Hstart, Hfetch in Hrun. rewrite Hrun.
  replace (key_ln (stored_cfg (ldb_extract_word 3 command)) >? 0)
    with true by lia.
  reflexivity.
Qed.

(** X8. A delete on a valid table whose command holds no " keys " hands
    NULL to fetch_keys, which takes its strlen: the run has no defined
    outcome and nothing after the two configuration reads happens. *)
Theorem delete_without_keys_word_is_undefined : forall command,
  ldb_valid_table (ldb_extract_word 3 command) = true ->
  keys_start command = None ->
  run (ldb_command_delete command) = Undefined.
Proof.
  intros command Hvalid Hnone.
  pose proof (delete_outcome command) as Hrun. cbv zeta in Hrun.
  now rewrite Hvalid, Hnone in Hrun.
Qed.





(** ** The commands on an invalid table, and their handles *)

(** X10. On an invalid table the commands print nothing and touch nothing:
    insert, select and unlink-list do nothing at all, while collate, delete
    and merge still call ldb_unlock for a lock they never took. *)
Theorem invalid_table_only_unlocks :
  (forall command,
      ldb_valid_table (ldb_extract_word 2 command) = false ->
      run (ldb_command_collate command)
      = Ok [EvUnlock (ldb_extract_word 2 command)] /\
      run (ldb_command_merge command)
      = Ok [EvUnlock (ldb_extract_word 2 command)]) /\
  (forall command,
      ldb_valid_table (ldb_extract_word 3 command) = false ->
      run (ldb_command_delete command)
      = Ok [EvUnlock (ldb_extract_word 3 command)] /\
      (forall type, run (ldb_command_insert command type) = Ok []) /\
      (forall format, run (ldb_command_select command format) = Ok [])) /\
  (forall command,
      ldb_valid_table (ldb_extract_word 4 command) = false ->
      run (ldb_command_unlink_list command) = Ok []).
Proof.
  split; [|split].
  - intros command Hinv. split.
    + pose proof (collate_outcome command) as H. cbv zeta in H.
      now rewrite Hinv in H.
    + pose proof (merge_outcome command) as H. cbv zeta in H.
      now rewrite Hinv in H.
  - intros command Hinv. split; [|split].
    + pose proof (delete_outcome command) as H. cbv zeta in H.
      now rewrite Hinv in H.
    + intros type. pose proof (insert_outcome command type) as H.
      cbv zeta in H. now rewrite Hinv in H.
    + intros format. pose proof (select_outcome command format) as H.
      cbv zeta in H. now rewrite Hinv in H.
  - intros command Hinv.
    pose proof (unlink_list_outcome command) as H. cbv zeta in H.
    now rewrite Hinv in H.
Qed.


(** X12. Select only reads: whatever the command and the format, it takes
    no lock, opens no sector, writes, unlinks or collates nothing, and
    calls ldb_fetch_recordset at most once. *)
Theorem select_only_reads : forall command format,
  exists tr, run (ldb_command_select command format) = Ok tr /\
    existsb modifies tr = false /\
    (length (filter is_fetch tr) <= 1)%nat.
Proof.
  intros command format. eexists. split; [apply select_outcome|].
  cbv zeta. split; repeat split_if; simpl; try reflexivity; lia.
Qed.

(** ** ldb_syntax_check *)

Lemma word_positions_succ from count :
  word_positions from (S count) = from :: word_positions (from + 1) count.
Proof.
  unfold word_positions. simpl. f_equal; [lia|].
  rewrite <- seq_shift, map_map. apply map_ext. intros n. lia.
Qed.

Lemma check_words_spec command known i : forall count j nr,
  let r := check_words count j command known i (j - 1) nr in
  j - 1 <= fst r <= j - 1 + Z.of_nat count /\
  (fst r = j - 1 + Z.of_nat count <->
   forallb (fun p => fulfilled (ldb_extract_word p known)
                       (ldb_extract_word p command))
     (word_positions j count) = true) /\
  snd r = if fst r >? j - 1 then (i, fst r) else nr.
Proof.
  induction count as [|count IH]; intros j nr.
  - simpl. split; [lia|]. split.
    + split; [reflexivity | intros _; lia].
    + replace (j - 1 >? j - 1) with false by lia. reflexivity.
  - rewrite word_positions_succ. cbn [check_words forallb].
    destruct (fulfilled (ldb_extract_word j known)
                (ldb_extract_word j command)) eqn:Ef; cbn [negb andb].
    + replace (j >? j - 1) with true by lia.
      specialize (IH (j + 1) (i, j)).
      replace (j + 1 - 1) with j in IH by lia. cbv zeta in IH.
      destruct IH as (Hb & Hall & Hnr).
      split; [lia|]. split.
      * rewrite <- Hall. split; lia.
      * rewrite Hnr.
        destruct (fst (check_words count (j + 1) command known i j (i, j)) >? j)
          eqn:E.
        -- replace (fst (check_words count (j + 1) command known i j (i, j))
                    >? j - 1) with true by lia. reflexivity.
        -- assert (fst (check_words count (j + 1) command known i j (i, j)) = j)
             by lia.
           replace (fst (check_words count (j + 1) command known i j (i, j))
                    >? j - 1) with true by lia.
           congruence.
    + cbn [fst snd]. split; [lia|]. split.
      * split; [lia | discriminate].
      * replace (j - 1 >? j - 1) with false by lia. reflexivity.
Qed.

Lemma check_words_matches command known i nr :
  let known_words := ldb_word_count known in
  let limit :=
    if ldb_word_count command <? known_words then ldb_word_count command
    else known_words in
  let r := check_words (Z.to_nat limit) 1 command known i 0 nr in
  ((fst r >? 0) && (fst r =? known_words) = matches command known) /\
  (matches command known = true -> snd r = (i, known_words)).
Proof.
  intros known_words limit r.
  pose proof (check_words_spec command known i (Z.to_nat limit) 1 nr) as H.
  change (1 - 1) with 0 in H. cbv zeta in H. fold r in H.
  destruct H as (Hb & Hall & Hnr).
  unfold matches. fold known_words.
  assert (Hm : (fst r >? 0) && (fst r =? known_words)
               = (0 <? known_words)
                 && (known_words <=? ldb_word_count command)
                 && forallb
                      (fun j => fulfilled (ldb_extract_word j known)
                                  (ldb_extract_word j command))
                      (word_positions 1 (Z.to_nat known_words))).
  { assert (Hlimit : limit = if ldb_word_count command <? known_words
                            then ldb_word_count command else known_words)
      by reflexivity.
    clearbody limit.
    destruct (fst r >? 0) eqn:Eh, (fst r =? known_words) eqn:Ek,
             (0 <? known_words) eqn:E0,
             (known_words <=? ldb_word_count command) eqn:E1,
             (ldb_word_count command <? known_words) eqn:E2;
      cbn [andb]; try reflexivity; try lia; subst limit.
    - destruct (forallb _ (word_positions 1 (Z.to_nat known_words))) eqn:Ea;
        [reflexivity|].
      assert (fst r <> 0 + Z.of_nat (Z.to_nat known_words)).
      { intros Heq. apply Hall in Heq. congruence. }
      lia.
    - destruct (forallb _ (word_positions 1 (Z.to_nat known_words))) eqn:Ea;
        [|reflexivity].
      assert (fst r = 0 + Z.of_nat (Z.to_nat known_words))
        by (now apply Hall).
      lia.
    - destruct (forallb _ (word_positions 1 (Z.to_nat known_words))) eqn:Ea;
        [|reflexivity].
      assert (fst r = 0 + Z.of_nat (Z.to_nat known_words))
        by (now apply Hall).
      lia. }
  split; [exact Hm|]. intros Ht. rewrite <- Hm in Ht.
  apply andb_true_iff in Ht. destruct Ht as [Ht1 Ht2].
  rewrite Hnr, Ht1. f_equal. lia.
Qed.

Lemma syntax_check_loop_spec command : forall known_commands i nr,
  let r := syntax_check_loop known_commands i command
             (ldb_word_count command) nr in
  fst r = existsb (matches command) known_commands /\
  (fst r = true ->
   exists n known,
     nth_error known_commands n = Some known /\
     matches command known = true /\
     (forall m earlier, (m < n)%nat ->
        nth_error known_commands m = Some earlier ->
        matches command earlier = false) /\
     snd r = (i + Z.of_nat n, ldb_word_count known)).
Proof.
  induction known_commands as [|known rest IH]; intros i nr.
  - simpl. split; [reflexivity | discriminate].
  - cbn [syntax_check_loop existsb].
    destruct (check_words_matches command known i nr) as [Hm Hnr].
    cbv zeta in Hm, Hnr. rewrite Hm.
    destruct (matches command known) eqn:E; cbn [orb fst snd].
    + split; [reflexivity|]. intros _. exists 0%nat, known.
      repeat split; try assumption.
      * intros m earlier Hlt. lia.
      * rewrite Hnr by reflexivity. f_equal. lia.
    + specialize (IH (i + 1)
                    (snd (check_words
                            (Z.to_nat
                               (if ldb_word_count command
                                   <? ldb_word_count known
                                then ldb_word_count command
                                else ldb_word_count known))
                            1 command known i 0 nr))).
      cbv zeta in IH. destruct IH as [Hfst Hfound].
      split; [exact Hfst|]. intros Ht.
      destruct (Hfound Ht) as (n & k & Hnth & Hk & Hearlier & Hsnd).
      exists (S n), k. repeat split; try assumption.
      * intros [|m] earlier Hlt Hm'; simpl in Hm'.
        -- injection Hm' as <-. exact E.
        -- apply (Hearlier m); [lia | exact Hm'].
      * rewrite Hsnd. f_equal. lia.
Qed.

(** X13. ldb_syntax_check answers true exactly when some known command
    matches the command: the known command has at least one word, no more
    words than the command, and each of its words is fulfilled by the
    command's word at the same place ({hex} by ldb_valid_hex, {ascii} by
    ldb_valid_ascii, any other word by equality).  It then reports the
    first such known command and its number of words; words of the command
    beyond those of the known command are not looked at. *)
Theorem ldb_syntax_check_first_match : forall command command_nr word_nr,
  fst (ldb_syntax_check command command_nr word_nr)
  = existsb (matches command) ldb_commands /\
  (fst (ldb_syntax_check command command_nr word_nr) = true ->
   exists n known,
     nth_error ldb_commands n = Some known /\
     matches command known = true /\
     (forall m earlier, (m < n)%nat ->
        nth_error ldb_commands m = Some earlier ->
        matches command earlier = false) /\
     snd (ldb_syntax_check command command_nr word_nr)
     = (Z.of_nat n, ldb_word_count known)).
Proof.
  intros command command_nr word_nr. unfold ldb_syntax_check.
  apply (syntax_check_loop_spec command ldb_commands 0
           (command_nr, word_nr)).
Qed.


(** ** The shell *)

Lemma list_eqb_eq a : forall b, list_eqb a b = true <-> a = b.
Proof.
  induction a as [|x a IH]; intros [|y b]; simpl; split; try congruence;
    try discriminate.
  - intros H. apply andb_true_iff in H. destruct H as [Hx Hr].
    apply Z.eqb_eq in Hx. apply IH in Hr. congruence.
  - intros H. injection H as -> ->. rewrite Z.eqb_refl. simpl.
    now apply IH.
Qed.

Lemma normalize_chars text :
  chars (ldb_command_normalize text) = ldb_command_normalize text.
Proof.
  rewrite normalize_spec. unfold spec_normalize.
  apply chars_nonzero, join_words_chars, split_words_word. now left.
Qed.

Lemma normalize_empty text :
  strlen (ldb_command_normalize text) = 0 <-> split_words [] (chars text) = [].
Proof.
  unfold strlen. rewrite <- chars_length, normalize_chars, normalize_spec.
  unfold spec_normalize.
  assert (Hws : Forall word (split_words [] (chars text)))
    by (apply split_words_word; now left).
  destruct (split_words [] (chars text)) as [|w ws]; [now split|].
  split; [|discriminate]. intros H.
  apply Forall_inv in Hws. destruct Hws as [Hne _].
  destruct w as [|c w]; [now elim Hne|].
  destruct ws; simpl in H; lia.
Qed.

Lemma normalize_quit text :
  strcmp_zero (ldb_command_normalize text) (cstr "quit") = true
  <-> split_words [] (chars text) = [cstr "quit"].
Proof.
  unfold strcmp_zero. rewrite list_eqb_eq, normalize_chars, normalize_spec.
  unfold spec_normalize.
  assert (Hws : Forall word (split_words [] (chars text)))
    by (apply split_words_word; now left).
  change (chars (cstr "quit")) with (cstr "quit").
  split.
  - intros H. pose proof (split_join _ Hws []) as Hs. rewrite H in Hs.
    destruct (split_words [] (chars text)) as [|w ws]; [discriminate H|].
    simpl in Hs. injection Hs as <- <-. reflexivity.
  - intros ->. reflexivity.
Qed.

Lemma shell_then_true (m : shell unit) out b out' :
  shell_bind m (fun _ => shell_ret true) out = Ok (b, out') -> b = true.
Proof.
  unfold shell_bind, shell_ret. destruct (m out) as [[a o]| |]; congruence.
Qed.

Lemma execute_quit raw out :
  split_words [] (chars raw) = [cstr "quit"] ->
  execute raw out = Ok (false, out).
Proof.
  intros Hq. unfold execute. cbv zeta.
  destruct (strlen (ldb_command_normalize raw) =? 0) eqn:E0.
  { apply Z.eqb_eq, normalize_empty in E0. rewrite E0 in Hq. discriminate Hq. }
  apply normalize_quit in Hq. rewrite Hq. reflexivity.
Qed.

Lemma execute_false raw out out' :
  execute raw out = Ok (false, out') ->
  split_words [] (chars raw) = [cstr "quit"] /\ out' = out.
Proof.
  unfold execute. cbv zeta.
  destruct (strlen (ldb_command_normalize raw) =? 0) eqn:E0.
  { unfold shell_ret. discriminate. }
  destruct (strcmp_zero (ldb_command_normalize raw) (cstr "quit")) eqn:Eq.
  - apply normalize_quit in Eq. unfold shell_ret.
    intros H. injection H as <-. now split.
  - intros H. exfalso.
    destruct (negb (fst (ldb_syntax_check (ldb_command_normalize raw) 0 0)));
      apply shell_then_true in H; discriminate H.
Qed.

(** X14. execute answers false, which ends the session, exactly for a line
    whose only word is quit, whatever blanks surround it; nothing is
    printed or called then. *)
Theorem execute_false_iff_quit : forall raw out out',
  execute raw out = Ok (false, out')
  <-> split_words [] (chars raw) = [cstr "quit"] /\ out' = out.
Proof.
  intros raw out out'. split.
  - apply execute_false.
  - intros [Hq ->]. now apply execute_quit.
Qed.

(** X15. A line without a word (empty, or blanks only) does nothing:
    execute prints nothing, calls nothing and answers true. *)
Theorem execute_blank_line_does_nothing : forall raw out,
  forallb blank (chars raw) = true ->
  execute raw out = Ok (true, out).
Proof.
  intros raw out Hb. unfold execute. cbv zeta.
  assert (H0 : split_words [] (chars raw) = []).
  { revert Hb. induction (chars raw) as [|c r IH]; [reflexivity|].
    simpl. intros H. apply andb_true_iff in H. destruct H as [Hc Hr].
    rewrite Hc. now apply IH. }
  apply normalize_empty in H0. rewrite H0. reflexivity.
Qed.

(** X16. execute looks at the words of a line only: two lines with the
    same words, however they are spaced, are executed alike. *)
Theorem execute_depends_on_words_only : forall a b,
  split_words [] (chars a) = split_words [] (chars b) ->
  forall out, execute a out = execute b out.
Proof.
  intros a b H out. unfold execute. cbv zeta.
  assert (Hn : ldb_command_normalize a = ldb_command_normalize b).
  { rewrite !normalize_spec. unfold spec_normalize. now rewrite H. }
  rewrite Hn. reflexivity.
Qed.

(** X17. A line with a word that is not quit and that no known command
    matches gets the one line E066 Syntax error, no command is run, and
    the session goes on. *)
Theorem execute_unknown_command_is_syntax_error : forall raw out,
  split_words [] (chars raw) <> [] ->
  split_words [] (chars raw) <> [cstr "quit"] ->
  existsb (matches (ldb_command_normalize raw)) ldb_commands = false ->
  execute raw out = Ok (true, out ++ [ShPrint E066_syntax_error]).
Proof.
  intros raw out Hne Hnq Hno. unfold execute. cbv zeta.
  destruct (strlen (ldb_command_normalize raw) =? 0) eqn:E0.
  { apply Z.eqb_eq, normalize_empty in E0. now elim Hne. }
  destruct (strcmp_zero (ldb_command_normalize raw) (cstr "quit")) eqn:Eq.
  { apply normalize_quit in Eq. now elim Hnq. }
  unfold ldb_syntax_check.
  destruct (syntax_check_loop_spec (ldb_command_normalize raw)
              ldb_commands 0 (0, 0)) as [Hfst _].
  cbv zeta in Hfst. rewrite Hfst, Hno. reflexivity.
Qed.

(** X18. When standard input is no terminal, main runs the first line and
    ends: the lines after it are never read. *)
Theorem main_runs_one_line_without_terminal : forall line rest out,
  main false (line :: rest) out = main false [line] out.
Proof.
  intros line rest out. unfold main.
  destruct (negb ldb_check_root); [reflexivity|].
  unfold shell_bind, shell_ret. cbn [command_loop].
  unfold shell_bind, shell_ret.
  destruct (stdin_handle (Some line) out) as [[stay o]| |]; [|reflexivity..].
  rewrite andb_false_r. reflexivity.
Qed.

Lemma stdin_handle_quit q out :
  split_words [] (chars (ldb_trim q)) = [cstr "quit"] ->
  exists o, stdin_handle (Some q) out = Ok (false, o).
Proof.
  intros Hq. unfold stdin_handle, shell_bind.
  destruct (len q =? 0).
  - unfold shell_printf, shell_emit. eexists. now apply execute_quit.
  - unfold shell_ret. eexists. now apply execute_quit.
Qed.

Lemma command_loop_quit q post : forall pre out,
  split_words [] (chars (ldb_trim q)) = [cstr "quit"] ->
  command_loop true (pre ++ q :: post) out = command_loop true (pre ++ [q]) out.
Proof.
  induction pre as [|l pre IH]; intros out Hq.
  - cbn [app command_loop]. unfold shell_bind at 1 3.
    destruct (shell_emit ShPrompt out) as [[u o]| |]; [|reflexivity..].
    unfold shell_bind.
    destruct (stdin_handle_quit q o Hq) as [o' ->]. reflexivity.
  - cbn [app command_loop]. unfold shell_bind at 1 3.
    destruct (shell_emit ShPrompt out) as [[u o]| |]; [|reflexivity..].
    unfold shell_bind.
    destruct (stdin_handle (Some l) o) as [[stay o']| |]; [|reflexivity..].
    destruct stay; cbn [andb]; [now apply IH | reflexivity].
Qed.

(** X19. On a terminal the session ends at the first line whose only word
    is quit: whatever follows that line is never read. *)
Theorem main_ends_at_quit : forall pre q post out,
  split_words [] (chars (ldb_trim q)) = [cstr "quit"] ->
  main true (pre ++ q :: post) out = main true (pre ++ [q]) out.
Proof.
  intros pre q post out Hq. unfold main.
  destruct (negb ldb_check_root); [reflexivity|].
  unfold shell_bind, shell_emit.
  now rewrite command_loop_quit.
Qed.

Lemma stdin_handle_false l o o' :
  stdin_handle (Some l) o = Ok (false, o') ->
  split_words [] (chars (ldb_trim l)) = [cstr "quit"].
Proof.
  unfold stdin_handle, shell_bind.
  destruct (len l =? 0); [unfold shell_printf, shell_emit | unfold shell_ret];
    intros H; now apply execute_false in H.
Qed.

Lemma command_loop_returns : forall stdin out r,
  command_loop true stdin out = Ok r ->
  exists q, In q stdin /\ split_words [] (chars (ldb_trim q)) = [cstr "quit"].
Proof.
  induction stdin as [|l stdin IH]; intros out r.
  - cbn [command_loop]. unfold shell_bind, shell_emit, stdin_handle,
      shell_lift. discriminate.
  - cbn [command_loop]. unfold shell_bind at 1. unfold shell_emit at 1.
    unfold shell_bind.
    destruct (stdin_handle (Some l) (out ++ [ShPrompt])) as [[stay o']| |] eqn:E;
      [|discriminate..].
    destruct stay; cbn [andb].
    + intros H. destruct (IH _ _ H) as (q & Hin & Hq).
      exists q. split; [now right | exact Hq].
    + intros _. exists l. split; [now left|].
      exact (stdin_handle_false _ _ _ E).
Qed.

(** X20. A session on a terminal returns only through quit: when main
    returns, either the root check has failed, with nothing printed, or
    some line read was the single word quit.  Printing, syntax errors and
    failing commands never end the session. *)
Theorem main_returns_only_after_quit : forall stdin out code out',
  main true stdin out = Ok (code, out') ->
  (ldb_check_root = false /\ code = EXIT_FAILURE /\ out' = out) \/
  (code = EXIT_SUCCESS /\
   exists q, In q stdin /\ split_words [] (chars (ldb_trim q)) = [cstr "quit"]).
Proof.
  intros stdin out code out'. unfold main.
  destruct ldb_check_root; cbn [negb].
  - unfold shell_bind, shell_emit.
    destruct (command_loop true stdin (out ++ [ShWelcome])) as [[u o]| |] eqn:E;
      [|discriminate..].
    unfold shell_ret. intros H. injection H as <- <-.
    right. split; [reflexivity|]. exact (command_loop_returns _ _ _ E).
  - unfold shell_ret. intros H. injection H as <- <-. left. now repeat split.
Qed.

(** The directories of a listing: the entries that do not start with a
    dot and that [ldb_dir_exists] accepts under [path]. *)
Lemma print_directories_lists path : forall entries out,
  (forall d, In d entries -> hd 0 d <> 46 ->
     strlen path + 1 + strlen d + 1 <= LDB_MAX_PATH) ->
  print_directories path entries out
  = Ok (tt, out ++ map ShLine
              (filter (fun d => negb (hd 0 d =? 46)
                                && ldb_dir_exists (chars path ++ [47] ++ chars d))
                 entries)).
Proof.
  induction entries as [|d entries IH]; intros out Hfit.
  - simpl. unfold shell_ret. now rewrite app_nil_r.
  - cbn [print_directories filter]. unfold shell_bind at 1.
    assert (Hrest : forall d', In d' entries -> hd 0 d' <> 46 ->
              strlen path + 1 + strlen d' + 1 <= LDB_MAX_PATH)
      by (intros d' Hin; apply Hfit; now right).
    destruct (hd 0 d =? 46) eqn:Edot; cbn [negb andb].
    + unfold shell_ret. now apply IH.
    + unfold shell_bind, shell_lift, sprintf_path.
      assert (Hd : (strlen path + 1 + strlen d + 1 <=? LDB_MAX_PATH) = true).
      { apply Z.leb_le, Hfit; [now left | now apply Z.eqb_neq]. }
      rewrite Hd.
      destruct (ldb_dir_exists (chars path ++ [47] ++ chars d)).
      * unfold shell_emit. rewrite IH by exact Hrest.
        cbn [map]. now rewrite <- app_assoc.
      * unfold shell_ret. now apply IH.
Qed.

(** X21. show tables from DB: for a name that passes its two checks and
    a database directory that opens, the path of the database always fits
    its buffer, and the lines printed are the names of the entries that do
    not start with a dot and are directories, in the order readdir gives
    them; nothing else is printed. *)
Theorem show_tables_lists_directories : forall command entries out,
  let dbname := ldb_extract_word 4 command in
  let path := chars ldb_root ++ [47] ++ chars dbname in
  strlen dbname + strlen ldb_root + 1 < LDB_MAX_PATH ->
  ldb_valid_name dbname = true ->
  opendir path = Some entries ->
  (forall d, In d entries -> hd 0 d <> 46 ->
     strlen path + 1 + strlen d + 1 <= LDB_MAX_PATH) ->
  ldb_command_show_tables command out
  = Ok (tt, out ++ map ShLine
              (filter (fun d => negb (hd 0 d =? 46)
                                && ldb_dir_exists (chars path ++ [47] ++ chars d))
                 entries)).
Proof.
  intros command entries out dbname path Hlen Hname Hdir Hfit.
  unfold ldb_command_show_tables. cbv zeta. fold dbname.
  assert (H1 : (strlen dbname + strlen ldb_root + 1 >=? LDB_MAX_PATH) = false)
    by lia.
  rewrite H1, Hname. cbn [negb].
  unfold shell_bind, shell_lift, sprintf_path.
  assert (H2 : (strlen ldb_root + 1 + strlen dbname + 1 <=? LDB_MAX_PATH) = true)
    by lia.
  rewrite H2. fold path. rewrite Hdir.
  now apply print_directories_lists.
Qed.


(** X23. dump never prints a message and asks ldb_dump for a sector
    between -1 and 256: without a fifth word it is -1, all sectors, and a
    sector number outside 0..256 is silently turned into -1 as well, so
    that the whole table is dumped. *)
Theorem dump_sector_is_clamped : forall command out,
  let dbtable := ldb_extract_word 2 command in
  let given := to_int (strtol16 (ldb_extract_word 6 command)) in
  exists sectorn,
    ldb_command_dump command out
    = Ok (tt, out ++
              if ldb_valid_table dbtable
              then [ShTable (EvReadCfg dbtable);
                    ShDump (stored_cfg dbtable)
                      (atoi (ldb_extract_word 4 command)) sectorn]
              else []) /\
    -1 <= sectorn <= 256 /\
    (hd 0 (ldb_extract_word 5 command) = 0 -> sectorn = -1) /\
    (hd 0 (ldb_extract_word 5 command) <> 0 ->
     (0 <= given <= 256 -> sectorn = given) /\
     (~ 0 <= given <= 256 -> sectorn = -1)).
Proof.
  intros command out dbtable given.
  unfold ldb_command_dump. cbv zeta. fold dbtable. fold given.
  eexists. split.
  - destruct (ldb_valid_table dbtable).
    + unfold shell_bind, of_console, ldb_read_cfg, bind, emit, ret, shell_emit.
      cbn [app map]. rewrite <- app_assoc. reflexivity.
    + unfold shell_ret. now rewrite app_nil_r.
  - destruct (hd 0 (ldb_extract_word 5 command) =? 0) eqn:E5; cbn [negb].
    + apply Z.eqb_eq in E5. repeat split; try lia; intros; congruence.
    + apply Z.eqb_neq in E5.
      destruct (given <? 0) eqn:Elo; destruct (given >? 256) eqn:Ehi;
        cbn [orb]; repeat split; intros; try lia; congruence.
Qed.

(** X24. show databases prints E070 and nothing else when the root
    directory cannot be opened; when it opens, the lines printed are the
    names of the entries that do not start with a dot and are directories
    under the root, in the order readdir gives them. *)
Theorem show_databases_lists_directories : forall out,
  (opendir ldb_root = None ->
   ldb_command_show_databases out = Ok (tt, out ++ [ShPrint E070_no_root])) /\
  (forall entries,
     opendir ldb_root = Some entries ->
     (forall d, In d entries -> hd 0 d <> 46 ->
        strlen ldb_root + 1 + strlen d + 1 <= LDB_MAX_PATH) ->
     ldb_command_show_databases out
     = Ok (tt, out ++ map ShLine
                 (filter (fun d => negb (hd 0 d =? 46)
                                   && ldb_dir_exists
                                        (chars ldb_root ++ [47] ++ chars d))
                    entries))).
Proof.
  intros out. unfold ldb_command_show_databases. split.
  - intros ->. reflexivity.
  - intros entries -> Hfit. now apply print_directories_lists.
Qed.

(** ** fetch_keys on a well-formed key list *)

Lemma firstn_exact (pre r : list Z) : firstn (length pre) (pre ++ r) = pre.
Proof.
  rewrite firstn_app, Nat.sub_diag, firstn_all. simpl. apply app_nil_r.
Qed.

Lemma skipn_exact (pre r : list Z) : skipn (length pre) (pre ++ r) = r.
Proof.
  rewrite skipn_app, Nat.sub_diag, skipn_all. reflexivity.
Qed.

Lemma strlen_clean s : Forall (fun c => c >= SPACE) s -> strlen s = len s.
Proof.
  intros H. unfold strlen, len. now rewrite <- chars_length, chars_nonzero.
Qed.

Lemma lower_hex_clean key :
  Forall (fun h => lower_hex h = true) key -> Forall (fun c => c >= SPACE) key.
Proof.
  apply Forall_impl. intros h. unfold lower_hex, SPACE. lia.
Qed.

Lemma key_tail_clean key_ln_ (rest : list (list Z)) :
  Forall (fun key => len key = 2 * key_ln_ /\
                     Forall (fun h => lower_hex h = true) key) rest ->
  Forall (fun c => c >= SPACE) (flat_map (cons COMMA) rest).
Proof.
  induction 1 as [|key rest [_ Hkey] _ IH]; simpl; [constructor|].
  constructor; [unfold COMMA, SPACE; lia|].
  apply Forall_app. split; [now apply lower_hex_clean | exact IH].
Qed.

Lemma key_tail_len key_ln_ (rest : list (list Z)) :
  Forall (fun key => len key = 2 * key_ln_ /\
                     Forall (fun h => lower_hex h = true) key) rest ->
  len (flat_map (cons COMMA) rest)
  = (2 * key_ln_ + 1) * Z.of_nat (length rest).
Proof.
  unfold len. induction 1 as [|key rest [Hlen _] _ IH];
    cbn [flat_map length app]; [lia|].
  rewrite length_app. unfold len in Hlen. nia.
Qed.

Lemma skipn_past (pre r : list Z) n :
  skipn (length pre + n) (pre ++ r) = skipn n r.
Proof.
  rewrite skipn_app, skipn_all2 by lia.
  replace (length pre + n - length pre)%nat with n by lia. reflexivity.
Qed.

Lemma load_at (pre r : list Z) b :
  load (pre ++ b :: r) (len pre) = Ok b.
Proof.
  unfold load, len. rewrite length_app. cbn [length].
  destruct (Z.leb_spec 0 (Z.of_nat (length pre))); [|lia].
  destruct (Z.ltb_spec (Z.of_nat (length pre))
              (Z.of_nat (length pre + S (length r)))); [|lia].
  cbn [andb]. rewrite Nat2Z.id, nth_middle. reflexivity.
Qed.

Lemma store_at (done zeros bytes : list Z) :
  len bytes <= len zeros ->
  store (done ++ zeros) (len done) bytes
  = Ok (done ++ bytes ++ skipn (length bytes) zeros).
Proof.
  intros Hroom. unfold store, len in *. rewrite length_app.
  destruct (Z.leb_spec 0 (Z.of_nat (length done))); [|lia].
  destruct (Z.leb_spec (Z.of_nat (length done) + Z.of_nat (length bytes))
              (Z.of_nat (length done + length zeros))); [|lia].
  cbn [andb]. rewrite Nat2Z.id, firstn_exact.
  replace (Z.to_nat (Z.of_nat (length done) + Z.of_nat (length bytes)))
    with (length done + length bytes)%nat by lia.
  now rewrite skipn_past.
Qed.

Lemma char_at_clean keys pos :
  Forall (fun c => c >= SPACE) keys -> 0 <= pos <= len keys ->
  char_at keys pos = Ok (nth (Z.to_nat pos) keys 0).
Proof.
  intros Hclean Hpos. unfold char_at.
  rewrite (strlen_clean _ Hclean), (chars_nonzero _ Hclean).
  destruct (0 <=? pos) eqn:E0; [|lia].
  destruct (pos <=? len keys) eqn:E1; [|lia]. reflexivity.
Qed.

Lemma fetch_keys_loop_end fuel keys keys_ln key_ln_ pos keyblob size :
  char_at keys pos = Ok 0 ->
  fetch_keys_loop (S fuel) keys keys_ln key_ln_ pos keyblob size
  = Ok (keyblob, size).
Proof. intros Hc. cbn [fetch_keys_loop]. rewrite Hc. reflexivity. Qed.

Lemma fetch_keys_loop_skip fuel keys keys_ln key_ln_ pos keyblob size :
  char_at keys pos = Ok COMMA -> pos < keys_ln ->
  fetch_keys_loop (S fuel) keys keys_ln key_ln_ pos keyblob size
  = fetch_keys_loop fuel keys keys_ln key_ln_ (pos + 1) keyblob size.
Proof.
  intros Hc Hpos. cbn [fetch_keys_loop]. rewrite Hc. cbn [rbind].
  destruct (Z.ltb_spec pos keys_ln); [|lia]. reflexivity.
Qed.

Lemma fetch_keys_loop_key fuel keys keys_ln key_ln_ pos keyblob size
    c keyblob' first :
  char_at keys pos = Ok c -> lower_hex c = true -> pos < keys_ln ->
  valid_hex_ln (advance keys pos) key_ln_ = true ->
  pos + key_ln_ * 2 <= keys_ln + 1 ->
  store keyblob size (ldb_hex_to_bin (advance keys pos) (key_ln_ * 2))
  = Ok keyblob' ->
  (pos <> 0 -> load keyblob' 0 = Ok first /\ load keyblob' size = Ok first) ->
  fetch_keys_loop (S fuel) keys keys_ln key_ln_ pos keyblob size
  = fetch_keys_loop fuel keys keys_ln key_ln_ (pos + key_ln_ * 2) keyblob'
      (size + key_ln_).
Proof.
  intros Hc Hhex Hpos Hvalid Hfit Hstore Hload.
  cbn [fetch_keys_loop]. rewrite Hc. cbn [rbind].
  assert (H0 : (c =? 0) = false) by (unfold lower_hex in Hhex; lia).
  assert (H1 : (c =? SPACE) = false)
    by (unfold lower_hex in Hhex; unfold SPACE; lia).
  assert (H2 : (c =? COMMA) = false)
    by (unfold lower_hex in Hhex; unfold COMMA; lia).
  rewrite H0, H1, H2, Hvalid. cbn [negb andb orb].
  destruct (Z.ltb_spec pos keys_ln); [|lia].
  destruct (Z.leb_spec (pos + key_ln_ * 2) (keys_ln + 1)); [|lia].
  cbn [guard rbind]. rewrite Hstore. cbn [rbind].
  destruct (Z.eqb_spec pos 0) as [E|E]; cbn [negb]; [reflexivity|].
  destruct (Hload E) as [-> ->]. cbn [rbind]. rewrite Z.eqb_refl.
  reflexivity.
Qed.

Lemma skipn_zeros n : forall m, skipn n (repeat 0 m) = repeat 0 (m - n).
Proof.
  induction n as [|n IH]; intros [|m]; cbn [skipn repeat Nat.sub];
    try reflexivity. apply IH.
Qed.

Section KeyList.

Variable key_ln_ : Z.
Hypothesis Hk : 1 <= key_ln_.
Hypothesis Hdec : forall key, len key = 2 * key_ln_ ->
  len (ldb_hex_to_bin key (key_ln_ * 2)) = key_ln_.
Hypothesis Hprefix : forall key more, len key = 2 * key_ln_ ->
  ldb_hex_to_bin (key ++ more) (key_ln_ * 2)
  = ldb_hex_to_bin key (key_ln_ * 2).

Lemma fetch_keys_loop_read_key fuel pre key tl done zeros first :
  Forall (fun c => c >= SPACE) pre ->
  len key = 2 * key_ln_ ->
  Forall (fun h => lower_hex h = true) key ->
  Forall (fun c => c >= SPACE) tl ->
  (pre <> [] ->
   done <> [] /\ hd 0 done = first /\
   hd 0 (ldb_hex_to_bin key (key_ln_ * 2)) = first) ->
  key_ln_ <= len zeros ->
  fetch_keys_loop (S fuel) (pre ++ key ++ tl) (len (pre ++ key ++ tl))
    key_ln_ (len pre) (done ++ zeros) (len done)
  = fetch_keys_loop fuel (pre ++ key ++ tl) (len (pre ++ key ++ tl))
      key_ln_ (len pre + key_ln_ * 2)
      (done ++ ldb_hex_to_bin key (key_ln_ * 2)
            ++ skipn (Z.to_nat key_ln_) zeros)
      (len done + key_ln_).
Proof.
  intros Hclean Hlen Hhex Htl Hsame Hroom.
  pose proof (lower_hex_clean _ Hhex) as Hkey_clean.
  assert (Hall : Forall (fun c => c >= SPACE) (pre ++ key ++ tl)).
  { apply Forall_app. split; [exact Hclean|]. apply Forall_app. now split. }
  assert (Hln : len (pre ++ key ++ tl) = len pre + 2 * key_ln_ + len tl).
  { unfold len in Hlen. unfold len. rewrite !length_app. lia. }
  assert (Hpre0 : 0 <= len pre) by (unfold len; lia).
  assert (Htl0 : 0 <= len tl) by (unfold len; lia).
  assert (Hadv : advance (pre ++ key ++ tl) (len pre) = key ++ tl).
  { unfold advance, len. now rewrite Nat2Z.id, (chars_nonzero _ Hall), skipn_exact. }
  destruct key as [|c key']; [unfold len in Hlen; cbn [length] in Hlen; lia|].
  apply (fetch_keys_loop_key fuel _ _ _ _ _ _ c _ first).
  - rewrite (char_at_clean _ _ Hall) by lia.
    unfold len at 1. rewrite Nat2Z.id. cbn [app]. now rewrite nth_middle.
  - now apply Forall_inv in Hhex.
  - lia.
  - rewrite Hadv. apply valid_hex_loop_spec.
    assert (Hn : (Z.to_nat key_ln_ <= length (c :: key'))%nat)
      by (unfold len in Hlen; lia).
    split.
    + rewrite length_app. lia.
    + rewrite firstn_app.
      replace (Z.to_nat key_ln_ - length (c :: key'))%nat with 0%nat by lia.
      rewrite firstn_O, app_nil_r.
      rewrite <- (firstn_skipn (Z.to_nat key_ln_) (c :: key')) in Hhex.
      now apply Forall_app in Hhex.
  - lia.
  - rewrite Hadv, (Hprefix _ tl Hlen).
    rewrite store_at by (rewrite (Hdec _ Hlen); exact Hroom).
    pose proof (Hdec _ Hlen) as Hd. unfold len in Hd.
    replace (length (ldb_hex_to_bin (c :: key') (key_ln_ * 2)))
      with (Z.to_nat key_ln_) by lia.
    reflexivity.
  - intros Hpos.
    assert (Hne : pre <> []).
    { intros ->. now apply Hpos. }
    destruct (Hsame Hne) as (Hdone & Hhd & Hfk).
    split.
    + destruct done as [|d done']; [now elim Hdone|].
      cbn [hd] in Hhd. subst d. exact (load_at [] _ first).
    + pose proof (Hdec _ Hlen) as Hd.
      destruct (ldb_hex_to_bin (c :: key') (key_ln_ * 2)) as [|b bs];
        [unfold len in Hd; cbn [length] in Hd; lia|].
      cbn [hd] in Hfk. subst b. apply load_at.
Qed.

Lemma fetch_keys_loop_keys first :
  forall rest pre done zeros fuel,
    Forall (fun c => c >= SPACE) pre ->
    Forall (fun key => len key = 2 * key_ln_ /\
                       Forall (fun h => lower_hex h = true) key) rest ->
    Forall (fun key => hd 0 (ldb_hex_to_bin key (key_ln_ * 2)) = first) rest ->
    done <> [] ->
    hd 0 done = first ->
    key_ln_ * Z.of_nat (length rest) <= len zeros ->
    (2 * length rest < fuel)%nat ->
    fetch_keys_loop fuel (pre ++ flat_map (cons COMMA) rest)
      (len (pre ++ flat_map (cons COMMA) rest)) key_ln_
      (len pre) (done ++ zeros) (len done)
    = Ok (done
          ++ flat_map (fun key => ldb_hex_to_bin key (key_ln_ * 2)) rest
          ++ skipn (Z.to_nat (key_ln_ * Z.of_nat (length rest))) zeros,
          len done + key_ln_ * Z.of_nat (length rest)).
Proof.
  induction rest as [|key rest IH];
    intros pre done zeros fuel Hclean Hkeys Hfirst Hdone Hhd Hroom Hfuel.
  - destruct fuel as [|fuel]; [lia|].
    cbn [flat_map length]. rewrite app_nil_r.
    rewrite fetch_keys_loop_end.
    + rewrite Z.mul_0_r, Z.add_0_r. cbn [Z.to_nat skipn app]. reflexivity.
    + rewrite (char_at_clean _ _ Hclean) by (unfold len; lia).
      unfold len. rewrite Nat2Z.id. now rewrite nth_overflow by lia.
  - apply Forall_cons_iff in Hkeys. destruct Hkeys as [[Hlen Hhex] Hkeys].
    apply Forall_cons_iff in Hfirst. destruct Hfirst as [Hfk Hfirst].
    cbn [length] in Hfuel, Hroom.
    destruct fuel as [|[|fuel]]; [lia..|].
    pose proof (key_tail_clean _ _ Hkeys) as Hfm_clean.
    pose proof (key_tail_len _ _ Hkeys) as Hfm_len.
    pose proof (lower_hex_clean _ Hhex) as Hkey_clean.
    pose proof (Hdec _ Hlen) as Hd.
    cbn [flat_map length app].
    assert (Hall : Forall (fun c => c >= SPACE)
                     (pre ++ COMMA :: key ++ flat_map (cons COMMA) rest)).
    { apply Forall_app. split; [exact Hclean|].
      constructor; [unfold COMMA, SPACE; lia|].
      apply Forall_app. now split. }
    assert (Hln : len (pre ++ COMMA :: key ++ flat_map (cons COMMA) rest)
                  = len pre + 1 + 2 * key_ln_
                    + (2 * key_ln_ + 1) * Z.of_nat (length rest)).
    { unfold len in Hlen, Hfm_len. unfold len. rewrite length_app.
      cbn [length]. rewrite length_app. lia. }
    assert (Hpre0 : 0 <= len pre) by (unfold len; lia).
    assert (Hrest0 : 0 <= (2 * key_ln_ + 1) * Z.of_nat (length rest))
      by nia.
    (* the comma *)
    rewrite fetch_keys_loop_skip.
    2:{ rewrite (char_at_clean _ _ Hall) by lia.
        unfold len at 1. now rewrite Nat2Z.id, nth_middle. }
    2:{ lia. }
    (* the key *)
    assert (Ekeys : pre ++ COMMA :: key ++ flat_map (cons COMMA) rest
                    = (pre ++ [COMMA]) ++ key ++ flat_map (cons COMMA) rest)
      by (now rewrite <- app_assoc).
    assert (Epos : len pre + 1 = len (pre ++ [COMMA]))
      by (unfold len; rewrite length_app; cbn [length]; lia).
    rewrite Ekeys, Epos.
    rewrite (fetch_keys_loop_read_key fuel (pre ++ [COMMA]) key
               (flat_map (cons COMMA) rest) done zeros first).
    + (* the keys left *)
      assert (Ekeys' : (pre ++ [COMMA]) ++ key ++ flat_map (cons COMMA) rest
                       = (pre ++ COMMA :: key) ++ flat_map (cons COMMA) rest).
      { rewrite <- !app_assoc. reflexivity. }
      assert (Epos' : len (pre ++ [COMMA]) + key_ln_ * 2
                      = len (pre ++ COMMA :: key)).
      { unfold len in Hlen. unfold len. rewrite !length_app.
        cbn [length]. lia. }
      assert (Edone : len done + key_ln_
                      = len (done ++ ldb_hex_to_bin key (key_ln_ * 2))).
      { unfold len in Hd. unfold len. rewrite length_app. lia. }
      rewrite Ekeys', Epos', Edone.
      rewrite (app_assoc done).
      rewrite IH.
      * apply f_equal. apply f_equal2.
        -- rewrite <- !app_assoc. rewrite skipn_skipn.
           replace (Z.to_nat (key_ln_ * Z.of_nat (length rest))
                    + Z.to_nat key_ln_)%nat
             with (Z.to_nat (key_ln_ * Z.of_nat (S (length rest)))) by nia.
           reflexivity.
        -- rewrite <- Edone. nia.
      * apply Forall_app. split; [exact Hclean|].
        constructor; [unfold COMMA, SPACE; lia | exact Hkey_clean].
      * exact Hkeys.
      * exact Hfirst.
      * destruct done; [now elim Hdone | discriminate].
      * destruct done; [now elim Hdone | exact Hhd].
      * unfold len. rewrite length_skipn. unfold len in Hroom. nia.
      * lia.
    + apply Forall_app. split; [exact Hclean|].
      constructor; [unfold COMMA, SPACE; lia | constructor].
    + exact Hlen.
    + exact Hhex.
    + exact Hfm_clean.
    + intros _. now repeat split.
    + nia.
Qed.

(** X25. fetch_keys reads a well-formed key list in full: for keys of
    key_ln bytes written as 2 * key_ln lower-case hex digits each, with a
    comma between two, that all decode to the same first byte, it returns
    the decoded keys one after the other, in the order given, and their
    total size; the array has one unused byte for every two commas. *)
Theorem fetch_keys_reads_key_list : forall key rest,
  Forall (fun key => len key = 2 * key_ln_ /\
                     Forall (fun h => lower_hex h = true) key) (key :: rest) ->
  Forall (fun other => hd 0 (ldb_hex_to_bin other (key_ln_ * 2))
                       = hd 0 (ldb_hex_to_bin key (key_ln_ * 2))) rest ->
  fetch_keys (Some (key ++ flat_map (cons COMMA) rest)) key_ln_
  = Ok (flat_map (fun key => ldb_hex_to_bin key (key_ln_ * 2)) (key :: rest)
        ++ calloc (Z.of_nat (length rest) / 2),
        key_ln_ * Z.of_nat (length (key :: rest))).
Proof.
  intros key rest Hkeys Hfirst.
  apply Forall_cons_iff in Hkeys. destruct Hkeys as [[Hlen Hhex] Hkeys].
  pose proof (key_tail_clean _ _ Hkeys) as Hfm_clean.
  pose proof (key_tail_len _ _ Hkeys) as Hfm_len.
  pose proof (lower_hex_clean _ Hhex) as Hkey_clean.
  pose proof (Hdec _ Hlen) as Hd.
  assert (Hall : Forall (fun c => c >= SPACE)
                   (key ++ flat_map (cons COMMA) rest))
    by (apply Forall_app; now split).
  assert (Hln : len (key ++ flat_map (cons COMMA) rest)
                = 2 * key_ln_ + (2 * key_ln_ + 1) * Z.of_nat (length rest)).
  { unfold len in Hlen, Hfm_len. unfold len. rewrite length_app. lia. }
  assert (Hdiv : len (key ++ flat_map (cons COMMA) rest) / 2
                 = key_ln_ * Z.of_nat (S (length rest))
                   + Z.of_nat (length rest) / 2).
  { rewrite Hln.
    replace (2 * key_ln_ + (2 * key_ln_ + 1) * Z.of_nat (length rest))
      with (Z.of_nat (length rest)
            + key_ln_ * Z.of_nat (S (length rest)) * 2) by lia.
    rewrite Z.div_add by lia. lia. }
  assert (Hhalf : 0 <= Z.of_nat (length rest) / 2)
    by (apply Z.div_pos; lia).
  unfold fetch_keys. cbv zeta.
  rewrite (strlen_clean _ Hall).
  assert (Hfuel : strlen_nat (key ++ flat_map (cons COMMA) rest)
                  = length (key ++ flat_map (cons COMMA) rest)).
  { now rewrite <- chars_length, (chars_nonzero _ Hall). }
  rewrite Hfuel, Hdiv.
  assert (Ecalloc : calloc (key_ln_ * Z.of_nat (S (length rest))
                            + Z.of_nat (length rest) / 2)
                    = [] ++ calloc (key_ln_ * Z.of_nat (S (length rest))
                                    + Z.of_nat (length rest) / 2))
    by reflexivity.
  rewrite Ecalloc.
  change (fetch_keys_loop
            (S (length (key ++ flat_map (cons COMMA) rest)))
            (key ++ flat_map (cons COMMA) rest)
            (len (key ++ flat_map (cons COMMA) rest)) key_ln_ 0
            ([] ++ calloc (key_ln_ * Z.of_nat (S (length rest))
                           + Z.of_nat (length rest) / 2)) 0)
    with (fetch_keys_loop
            (S (length (key ++ flat_map (cons COMMA) rest)))
            ([] ++ key ++ flat_map (cons COMMA) rest)
            (len ([] ++ key ++ flat_map (cons COMMA) rest)) key_ln_ (len [])
            ([] ++ calloc (key_ln_ * Z.of_nat (S (length rest))
                           + Z.of_nat (length rest) / 2)) (len [])).
  assert (Hzeros : len (calloc (key_ln_ * Z.of_nat (S (length rest))
                                + Z.of_nat (length rest) / 2))
                   = key_ln_ * Z.of_nat (S (length rest))
                     + Z.of_nat (length rest) / 2).
  { unfold len, calloc. rewrite repeat_length. nia. }
  rewrite (fetch_keys_loop_read_key _ [] key (flat_map (cons COMMA) rest) []
             _ (hd 0 (ldb_hex_to_bin key (key_ln_ * 2))));
    [ | constructor | exact Hlen | exact Hhex | exact Hfm_clean
      | intros Hne; now elim Hne | rewrite Hzeros; nia ].
  cbn [app]. change (len []) with 0. rewrite !Z.add_0_l.
  assert (Epos : key_ln_ * 2 = len key) by lia.
  assert (Edone : key_ln_ = len (ldb_hex_to_bin key (key_ln_ * 2))) by lia.
  pose proof (fetch_keys_loop_keys (hd 0 (ldb_hex_to_bin key (key_ln_ * 2)))
                rest key (ldb_hex_to_bin key (key_ln_ * 2))
                (skipn (Z.to_nat key_ln_)
                   (calloc (key_ln_ * Z.of_nat (S (length rest))
                            + Z.of_nat (length rest) / 2)))
                (length (key ++ flat_map (cons COMMA) rest))
                Hkey_clean Hkeys Hfirst) as Hloop.
  rewrite <- Edone, <- Epos in Hloop. rewrite Hloop.
  - apply f_equal. apply f_equal2.
    + cbn [flat_map]. rewrite <- app_assoc. do 2 apply f_equal.
      rewrite skipn_skipn. unfold calloc. rewrite skipn_zeros. f_equal. nia.
    + cbn [length]. nia.
  - destruct (ldb_hex_to_bin key (key_ln_ * 2)); [|discriminate].
    unfold len in Hd. cbn [length] in Hd. lia.
  - reflexivity.
  - unfold len. rewrite length_skipn. unfold len in Hzeros. nia.
  - rewrite length_app. unfold len in Hlen, Hfm_len. nia.
Qed.

End KeyList.
End Console.

(** ** ldb_command_normalize *)

(** C10. ldb_command_normalize returns the words of the text (its maximal
    runs of characters above ' ') joined by single spaces: no leading and
    no trailing space, no two spaces in a row, the characters above ' '
    kept in their order; normalising the result again changes nothing. *)
Theorem ldb_command_normalize_normal_form : forall text,
  ldb_command_normalize text = spec_normalize text /\
  hd_error (ldb_command_normalize text) <> Some SPACE /\
  last (ldb_command_normalize text) 0 <> SPACE /\
  single_spaced (ldb_command_normalize text) = true /\
  Forall (fun c => c >= SPACE) (ldb_command_normalize text) /\
  filter (fun c => c >? SPACE) (ldb_command_normalize text)
  = filter (fun c => c >? SPACE) (chars text) /\
  ldb_command_normalize (ldb_command_normalize text)
  = ldb_command_normalize text.
Proof.
  intros text.
  assert (Hws : Forall word (split_words [] (chars text)))
    by (apply split_words_word; now left).
  split; [|split; [|split; [|split; [|split; [|split]]]]].
  - apply normalize_spec.
  - rewrite normalize_spec. intros H.
    apply (join_words_hd _ Hws) in H. unfold nonblank in H. lia.
  - rewrite normalize_spec. unfold spec_normalize.
    destruct (join_words (split_words [] (chars text))) eqn:E;
      [simpl; unfold SPACE; lia|].
    rewrite <- E. intros H.
    assert (Hl := join_words_last _ Hws). rewrite E in Hl.
    specialize (Hl ltac:(discriminate)). rewrite <- E in Hl.
    unfold nonblank in Hl. lia.
  - rewrite normalize_spec. now apply join_words_single_spaced.
  - rewrite normalize_spec. now apply join_words_chars.
  - apply normalize_keeps_nonblank.
  - apply normalize_idempotent.
Qed.

(** ** Runs in the concrete environment *)

Notation "'run_delete' c" :=
  (run (ldb_command_delete Fixture.ldb_extract_word Fixture.atoi
          Fixture.ldb_valid_table Fixture.stored_cfg Fixture.ldb_hex_to_bin
          Fixture.ldb_collate_cmp (cstr c)))
  (at level 10, c at level 9, only parsing).
Notation "'run_collate' c" :=
  (run (ldb_command_collate Fixture.ldb_extract_word Fixture.atoi
          Fixture.ldb_valid_table Fixture.stored_cfg (cstr c)))
  (at level 10, c at level 9, only parsing).
Notation "'run_merge' c" :=
  (run (ldb_command_merge Fixture.ldb_extract_word Fixture.atoi
          Fixture.ldb_valid_table Fixture.stored_cfg (cstr c)))
  (at level 10, c at level 9, only parsing).
Notation "'run_insert' c t" :=
  (run (ldb_command_insert Fixture.ldb_extract_word Fixture.ldb_valid_table
          Fixture.stored_cfg Fixture.ldb_hex_to_bin Fixture.uint16_write
          (cstr c) t))
  (at level 10, c at level 9, t at level 9, only parsing).
Notation "'run_select' c f" :=
  (run (ldb_command_select Fixture.ldb_extract_word Fixture.atoi
          Fixture.ldb_valid_table Fixture.stored_cfg Fixture.ldb_hex_to_bin
          (cstr c) f))
  (at level 10, c at level 9, f at level 9, only parsing).

Lemma fixture_cmp_total a : forall b,
  Fixture.ldb_collate_cmp a b <= 0 \/ Fixture.ldb_collate_cmp b a <= 0.
Proof.
  induction a as [|x a IH]; intros [|y b]; simpl; try (left; lia).
  destruct (x >? y) eqn:E1, (x <? y) eqn:E2, (y >? x) eqn:E3, (y <? x) eqn:E4;
    try lia; apply IH.
Qed.

(** C2. A key list whose digits past the first key_ln characters are no hex
    digits is accepted: valid_hex_ln is asked about key_ln characters only,
    where a key has key_ln * 2.  With 4-byte keys, "aabbzzzz" passes and
    ldb_collate is called. *)
Theorem delete_accepts_key_with_bad_digits :
  valid_hex_ln (cstr "aabbzzzz") (4 * 2) = false /\
  valid_hex_ln (cstr "aabbzzzz") 4 = true /\
  fetch_keys Fixture.ldb_hex_to_bin
    (keys_start (cstr "delete from db/t max 10 keys aabbzzzz")) 4
  = Ok ([170; 187; 0; 0], 4) /\
  exists tr,
    run_delete "delete from db/t max 10 keys aabbzzzz" = Ok tr /\
    invokes_collate tr = true /\ prints invalid_keys tr = false.
Proof.
  repeat split; try (vm_compute; reflexivity).
  eexists. split; [vm_compute; reflexivity|]. split; reflexivity.
Qed.

(** C9. A hex insert hands the decoded payload to ldb_node_write without the
    4-byte header: the header is written into the text buffer, which only
    the ASCII path passes on.  For the 4-byte payload 01020304 the record
    starts 01 02 03 04 where the header 06 00 04 00 belongs (and of the 8
    bytes announced only 4 were decoded); the same payload length inserted
    as ASCII carries the header. *)
Theorem insert_hex_record_lacks_header :
  run_insert "insert into db/t key aabbccdd hex 01020304" INSERT_HEX
  = Ok [EvReadCfg (cstr "db/t");
        EvOpen (mk_table (cstr "db/t") 4 0 false) [170; 187; 204; 221];
        EvNodeWrite (mk_table (cstr "db/t") 4 0 false) [170; 187; 204; 221]
          [1; 2; 3; 4] 8 0;
        EvFclose] /\
  record_header Fixture.uint16_write 4 = [6; 0; 4; 0] /\
  run_insert "insert into db/t key aabbccdd ascii abcd" INSERT_ASCII
  = Ok [EvReadCfg (cstr "db/t");
        EvOpen (mk_table (cstr "db/t") 4 0 false) [170; 187; 204; 221];
        EvNodeWrite (mk_table (cstr "db/t") 4 0 false) [170; 187; 204; 221]
          [6; 0; 4; 0; 97; 98; 99; 100] 8 0;
        EvFclose].
Proof. repeat split; vm_compute; reflexivity. Qed.

(** ** The theorems at concrete commands *)

Lemma length_checks_guard_collate_witness :
  (exists tr, run_collate "collate db/fixed max 5" = Ok tr /\
     prints length_mismatch tr = true /\ invokes_collate tr = false) /\
  (exists tr, run_merge "merge db/t into db/wide max 2" = Ok tr /\
     prints length_mismatch tr = true /\ invokes_collate tr = false) /\
  (exists tr, run_delete "delete from db/fixed max 5 keys aabbccdd" = Ok tr /\
     prints is_E076 tr = true /\ invokes_collate tr = false).
Proof.
  destruct (length_checks_guard_collate Fixture.ldb_extract_word Fixture.atoi
              Fixture.ldb_valid_table Fixture.stored_cfg
              Fixture.ldb_hex_to_bin Fixture.ldb_collate_cmp)
    as (Hcollate & Hmerge & Hdelete & _).
  split; [|split].
  - destruct (Hcollate (cstr "collate db/fixed max 5"))
      as (tr & Hrun & Hfail & _); [vm_compute; reflexivity|].
    exists tr. split; [exact Hrun|]. apply Hfail. vm_compute. reflexivity.
  - destruct (Hmerge (cstr "merge db/t into db/wide max 2"))
      as (tr & Hrun & Hfail & _); [vm_compute; reflexivity|].
    exists tr. split; [exact Hrun|]. apply Hfail. vm_compute. reflexivity.
  - assert (exists tr,
               run_delete "delete from db/fixed max 5 keys aabbccdd" = Ok tr)
      as [tr Hrun] by (eexists; vm_compute; reflexivity).
    destruct (Hdelete (cstr "delete from db/fixed max 5 keys aabbccdd") tr)
      as [Hfail _]; [vm_compute; reflexivity | exact Hrun |].
    destruct Hfail as (keys & keys_ln & _ & _ & HE076 & Hnone);
      [vm_compute; reflexivity|].
    exists tr. split; [exact Hrun|]. split; assumption.
Defined.

Lemma maintenance_commands_hold_lock_witness :
  exists tr body,
    run_delete "delete from db/t max 10 keys aabbccdd" = Ok tr /\
    lock_discipline false tr = true /\
    tr = EvLock (cstr "db/t") :: EvReadCfg (cstr "db/t")
         :: body ++ [EvUnlock (cstr "db/t")] /\
    lock_free body = true.
Proof.
  destruct (maintenance_commands_hold_lock Fixture.ldb_extract_word
              Fixture.atoi Fixture.ldb_valid_table Fixture.stored_cfg
              Fixture.ldb_hex_to_bin Fixture.ldb_collate_cmp)
    as (_ & _ & Hdelete & _).
  assert (exists tr,
             run_delete "delete from db/t max 10 keys aabbccdd" = Ok tr)
    as [tr Hrun] by (eexists; vm_compute; reflexivity).
  destruct (Hdelete _ tr Hrun) as [Hheld Hshape].
  destruct Hshape as (body & Htr & Hfree); [vm_compute; reflexivity|].
  exists tr, body. repeat split; assumption.
Defined.

Lemma insert_checks_key_against_32_bits_witness :
  (exists tr,
      run_insert "insert into db/t key aabbcc ascii hello" INSERT_ASCII = Ok tr /\
      tr = [EvPrintf E071_key_too_short]) /\
  (exists tr,
      run_insert "insert into db/t key aabbccdd ascii hello" INSERT_ASCII = Ok tr /\
      writes_record tr = true /\ prints any_message tr = false).
Proof.
  split.
  - destruct (insert_checks_key_against_32_bits Fixture.ldb_extract_word
                Fixture.ldb_valid_table Fixture.stored_cfg
                Fixture.ldb_hex_to_bin Fixture.uint16_write
                (cstr "insert into db/t key aabbcc ascii hello") INSERT_ASCII)
      as (tr & Hrun & Hshort & _); [vm_compute; reflexivity|].
    exists tr. split; [exact Hrun|]. apply Hshort. vm_compute. reflexivity.
  - destruct (insert_checks_key_against_32_bits Fixture.ldb_extract_word
                Fixture.ldb_valid_table Fixture.stored_cfg
                Fixture.ldb_hex_to_bin Fixture.uint16_write
                (cstr "insert into db/t key aabbccdd ascii hello") INSERT_ASCII)
      as (tr & Hrun & _ & Hlong); [vm_compute; reflexivity|].
    exists tr. split; [exact Hrun|]. apply Hlong. vm_compute. discriminate.
Defined.

Lemma merge_requires_equal_configuration_witness :
  (exists tr, run_merge "merge db/t into db/wide max 50" = Ok tr /\
     invokes_collate tr = false /\ prints incompatible_tables tr = true) /\
  (exists tr, run_merge "merge db/t into db/t max 50" = Ok tr /\
     In (EvCollate (mk_table (cstr "db/t") 4 0 false)
           (mk_table (cstr "db/t") 4 0 false) 50 true None 0) tr).
Proof.
  split.
  - destruct (merge_requires_equal_configuration Fixture.ldb_extract_word
                Fixture.atoi Fixture.ldb_valid_table Fixture.stored_cfg
                (cstr "merge db/t into db/wide max 50"))
      as (tr & Hrun & Hdiff & _); [vm_compute; reflexivity|].
    destruct Hdiff as [Hnone Hmsg]; [left; vm_compute; discriminate|].
    exists tr. split; [exact Hrun|]. split; [exact Hnone | exact Hmsg].
  - destruct (merge_requires_equal_configuration Fixture.ldb_extract_word
                Fixture.atoi Fixture.ldb_valid_table Fixture.stored_cfg
                (cstr "merge db/t into db/t max 50"))
      as (tr & Hrun & _ & Hsame & _); [vm_compute; reflexivity|].
    exists tr. split; [exact Hrun|].
    apply Hsame; vm_compute; reflexivity.
Defined.

Lemma select_checks_key_length_witness :
  (exists tr, run_select "select from db/wide key aabb" HEX = Ok tr /\
     prints is_E071 tr = true /\ fetches tr = false) /\
  (exists tr, run_select "select from db/wide key aabbccddeeff" HEX = Ok tr /\
     prints is_E073 tr = true /\ fetches tr = false) /\
  (exists tr, run_select "select from db/wide key aabbccdd" HEX = Ok tr /\
     fetches tr = true /\ prints any_message tr = false).
Proof.
  split; [|split].
  - destruct (select_checks_key_length Fixture.ldb_extract_word Fixture.atoi
                Fixture.ldb_valid_table Fixture.stored_cfg
                Fixture.ldb_hex_to_bin
                (cstr "select from db/wide key aabb") HEX)
      as (tr & Hrun & Hshort & _); [vm_compute; reflexivity|].
    exists tr. split; [exact Hrun|]. apply Hshort. vm_compute. reflexivity.
  - destruct (select_checks_key_length Fixture.ldb_extract_word Fixture.atoi
                Fixture.ldb_valid_table Fixture.stored_cfg
                Fixture.ldb_hex_to_bin
                (cstr "select from db/wide key aabbccddeeff") HEX)
      as (tr & Hrun & _ & Hbad & _); [vm_compute; reflexivity|].
    exists tr. split; [exact Hrun|].
    apply Hbad; vm_compute; discriminate.
  - destruct (select_checks_key_length Fixture.ldb_extract_word Fixture.atoi
                Fixture.ldb_valid_table Fixture.stored_cfg
                Fixture.ldb_hex_to_bin
                (cstr "select from db/wide key aabbccdd") HEX)
      as (tr & Hrun & _ & _ & Hgood); [vm_compute; reflexivity|].
    exists tr. split; [exact Hrun|].
    apply Hgood; [vm_compute; discriminate | right; vm_compute; reflexivity].
Defined.

Lemma select_short_match_iff_four_bytes_witness :
  (true = true <->
   strlen (Fixture.ldb_extract_word 5
             (cstr "select from db/wide key aabbccdd")) / 2 = 4) /\
  (strlen (Fixture.ldb_extract_word 5
             (cstr "select from db/wide key aabbccddaabbccddaabbccddaabbccdd"))
   / 2 = 16 -> false = false).
Proof.
  split.
  - apply (select_short_match_iff_four_bytes Fixture.ldb_extract_word
             Fixture.atoi Fixture.ldb_valid_table Fixture.stored_cfg
             Fixture.ldb_hex_to_bin
             (cstr "select from db/wide key aabbccdd") HEX
             [EvReadCfg (cstr "db/wide");
              EvFetchRecordset (mk_table (cstr "db/wide") 16 0 false)
                [170; 187; 204; 221] true (ldb_hexprint_width 16)]
             (mk_table (cstr "db/wide") 16 0 false)
             [170; 187; 204; 221] true (ldb_hexprint_width 16)).
    + vm_compute. reflexivity.
    + right. left. reflexivity.
  - intros Hfull.
    apply (select_short_match_iff_four_bytes Fixture.ldb_extract_word
             Fixture.atoi Fixture.ldb_valid_table Fixture.stored_cfg
             Fixture.ldb_hex_to_bin
             (cstr "select from db/wide key aabbccddaabbccddaabbccddaabbccdd")
             ASCII
             [EvReadCfg (cstr "db/wide");
              EvFetchRecordset (mk_table (cstr "db/wide") 16 0 false)
                [170; 187; 204; 221; 170; 187; 204; 221;
                 170; 187; 204; 221; 170; 187; 204; 221]
                false ldb_asciiprint]
             (mk_table (cstr "db/wide") 16 0 false)
             [170; 187; 204; 221; 170; 187; 204; 221;
              170; 187; 204; 221; 170; 187; 204; 221]
             false ldb_asciiprint).
    + vm_compute. reflexivity.
    + right. left. reflexivity.
    + vm_compute. reflexivity.
    + vm_compute. discriminate.
Defined.

Lemma delete_sorts_keys_then_collates_into_tmp_witness :
  (exists tr sorted,
      run_delete "delete from db/t max 10 keys aabbccdd,aa000001,aa000000"
      = Ok tr /\
      In (EvCollate (mk_table (cstr "db/t") 4 0 false)
            (mk_table (cstr "db/t") 4 0 true) 10 false (Some sorted) 12) tr /\
      Sorted (cmp_le Fixture.ldb_collate_cmp) (elements 3 4 sorted)) /\
  (exists tr,
      run_collate "collate db/t max 10" = Ok tr /\
      In (EvCollate (mk_table (cstr "db/t") 4 0 false)
            (mk_table (cstr "db/t") 4 0 true) 10 false None 0) tr).
Proof.
  destruct (delete_sorts_keys_then_collates_into_tmp Fixture.ldb_extract_word
              Fixture.atoi Fixture.ldb_valid_table Fixture.stored_cfg
              Fixture.ldb_hex_to_bin Fixture.ldb_collate_cmp)
    as (Hdelete & Hcollate & _).
  split.
  - destruct (run_delete
                "delete from db/t max 10 keys aabbccdd,aa000001,aa000000")
      as [tr| |] eqn:Hrun;
      [|vm_compute in Hrun; discriminate|vm_compute in Hrun; discriminate].
    assert (Hcall : invokes_collate tr = true).
    { pose proof Hrun as Hval. vm_compute in Hval.
      injection Hval as Hval. rewrite <- Hval. reflexivity. }
    destruct (Hdelete _ tr Hrun Hcall)
      as (keyblob & keys_ln & nmemb & sorted
          & Hfetch & Hn & Hs & Htr & _ & _ & Hsorted).
    vm_compute in Hfetch. injection Hfetch as Hblob Hln.
    subst keyblob keys_ln. vm_compute in Hn. subst nmemb.
    exists tr, sorted. split; [reflexivity|]. split.
    + rewrite Htr. do 5 right. left. reflexivity.
    + apply Hsorted. exact fixture_cmp_total.
  - destruct (run_collate "collate db/t max 10") as [tr| |] eqn:Hrun;
      [|vm_compute in Hrun; discriminate|vm_compute in Hrun; discriminate].
    assert (Hcall : invokes_collate tr = true).
    { pose proof Hrun as Hval. vm_compute in Hval.
      injection Hval as Hval. rewrite <- Hval. reflexivity. }
    destruct (Hcollate _ tr Hrun Hcall) as [Htr _].
    exists tr. split; [reflexivity|].
    rewrite Htr. do 3 right. left. reflexivity.
Defined.

(** ** Where the stated properties fail *)

(** C1 as stated fails: a delete whose key list is rejected prints the
    invalid-keys line, also when max differs from the fixed record
    length. *)
Lemma delete_rejected_keys_hide_length_mismatch :
  Fixture.ldb_valid_table
    (Fixture.ldb_extract_word 3 (cstr "delete from db/fixed max 5 keys zz"))
  = true /\
  length_checks_pass
    (Fixture.stored_cfg
       (Fixture.ldb_extract_word 3 (cstr "delete from db/fixed max 5 keys zz")))
    (Fixture.atoi
       (Fixture.ldb_extract_word 5 (cstr "delete from db/fixed max 5 keys zz")))
  = false /\
  exists tr,
    run_delete "delete from db/fixed max 5 keys zz" = Ok tr /\
    prints length_mismatch tr = false.
Proof.
  repeat split; try (vm_compute; reflexivity).
  eexists. split; [vm_compute; reflexivity | reflexivity].
Qed.

(** C3 as stated fails: insert reads the configuration and writes a record
    without any ldb_lock. *)
Lemma insert_writes_without_lock :
  exists tr,
    run_insert "insert into db/t key aabbccdd ascii hello" INSERT_ASCII = Ok tr /\
    writes_record tr = true /\
    existsb is_lock tr = false /\
    lock_discipline false tr = false.
Proof.
  eexists. split; [vm_compute; reflexivity|]. repeat split; reflexivity.
Qed.

(** C4 as stated fails: a 4-byte key is accepted for a table whose keys are
    16 bytes long. *)
Lemma insert_accepts_key_shorter_than_table_key :
  Fixture.ldb_valid_table
    (Fixture.ldb_extract_word 3
       (cstr "insert into db/wide key aabbccdd ascii hello")) = true /\
  strlen (Fixture.ldb_extract_word 5
            (cstr "insert into db/wide key aabbccdd ascii hello")) / 2
  < key_ln (Fixture.stored_cfg
              (Fixture.ldb_extract_word 3
                 (cstr "insert into db/wide key aabbccdd ascii hello"))) /\
  exists tr,
    run_insert "insert into db/wide key aabbccdd ascii hello" INSERT_ASCII
    = Ok tr /\
    writes_record tr = true /\ prints any_message tr = false.
Proof.
  repeat split; try (vm_compute; reflexivity).
  eexists. split; [vm_compute; reflexivity|]. split; reflexivity.
Qed.

(** C5 as stated fails: tables of different key length, and max differing
    from the fixed record length: the length-mismatch line is printed, not
    the incompatible-tables line. *)
Lemma merge_length_mismatch_comes_first :
  Fixture.ldb_valid_table
    (Fixture.ldb_extract_word 2 (cstr "merge db/fixed into db/wide max 5"))
  = true /\
  key_ln (Fixture.stored_cfg
            (Fixture.ldb_extract_word 2
               (cstr "merge db/fixed into db/wide max 5")))
  <> key_ln (Fixture.stored_cfg
               (Fixture.ldb_extract_word 4
                  (cstr "merge db/fixed into db/wide max 5"))) /\
  exists tr,
    run_merge "merge db/fixed into db/wide max 5" = Ok tr /\
    prints incompatible_tables tr = false.
Proof.
  repeat split; try (vm_compute; reflexivity); try (vm_compute; discriminate).
  eexists. split; [vm_compute; reflexivity | reflexivity].
Qed.

(** C6 as stated fails: a 2-byte key, neither the table's 16 bytes nor 4, is
    answered with E071, not E073. *)
Lemma select_short_key_gets_E071 :
  Fixture.ldb_valid_table
    (Fixture.ldb_extract_word 3 (cstr "select from db/wide key aabb")) = true /\
  strlen (Fixture.ldb_extract_word 5 (cstr "select from db/wide key aabb")) / 2
  <> key_ln (Fixture.stored_cfg
               (Fixture.ldb_extract_word 3
                  (cstr "select from db/wide key aabb"))) /\
  strlen (Fixture.ldb_extract_word 5 (cstr "select from db/wide key aabb")) / 2
  <> 4 /\
  exists tr,
    run_select "select from db/wide key aabb" HEX = Ok tr /\
    prints is_E073 tr = false /\ prints is_E071 tr = true.
Proof.
  repeat split; try (vm_compute; reflexivity); try (vm_compute; discriminate).
  eexists. split; [vm_compute; reflexivity|]. split; reflexivity.
Qed.

(** C7 as stated fails: on a table with 4-byte keys a key of the full key
    length is fetched with short matching. *)
Lemma select_full_key_of_4_bytes_is_short_match :
  strlen (Fixture.ldb_extract_word 5 (cstr "select from db/t key aabbccdd")) / 2
  = key_ln (Fixture.stored_cfg
              (Fixture.ldb_extract_word 3
                 (cstr "select from db/t key aabbccdd"))) /\
  run_select "select from db/t key aabbccdd" HEX
  = Ok [EvReadCfg (cstr "db/t");
        EvFetchRecordset (mk_table (cstr "db/t") 4 0 false)
          [170; 187; 204; 221] true (ldb_hexprint_width 16)].
Proof. split; vm_compute; reflexivity. Qed.

(** * Further properties *)

(** ** valid_hex_ln and keys_start *)

(** X1. valid_hex_ln accepts exactly when the string has at least ln
    characters before its terminator and the first ln of them are digits
    0-9 or lower-case a-f; upper-case digits are refused, and a count of
    zero or less is always accepted. *)
Theorem valid_hex_ln_spec : forall str ln,
  valid_hex_ln str ln = true <->
  (Z.to_nat ln <= length str)%nat /\
  Forall (fun h => lower_hex h = true) (firstn (Z.to_nat ln) str).
Proof. intros str ln. apply valid_hex_loop_spec. Qed.

Lemma is_prefix_spec p : forall s,
  is_prefix p s = true <-> exists t, s = p ++ t.
Proof.
  induction p as [|a p IH]; intros s; simpl.
  - split; [intros _; now exists s | reflexivity].
  - destruct s as [|b s].
    + split; [discriminate | intros [t H]; discriminate].
    + rewrite andb_true_iff, IH, Z.eqb_eq. split.
      * intros [-> [t ->]]. now exists t.
      * intros [t H]. injection H as -> ->. split; [reflexivity | now exists t].
Qed.

Lemma strstr_some needle : forall hay r,
  strstr hay needle = Some r ->
  exists pre, hay = pre ++ r /\ is_prefix needle r = true /\
    forall n, (n < length pre)%nat -> is_prefix needle (skipn n hay) = false.
Proof.
  induction hay as [|c hay IH]; intros r; simpl.
  - destruct (is_prefix needle []) eqn:E; [|discriminate].
    intros [= <-]. exists []. repeat split; [assumption|]. simpl. lia.
  - destruct (is_prefix needle (c :: hay)) eqn:E.
    + intros [= <-]. exists []. repeat split; [assumption|]. simpl. lia.
    + intros H. destruct (IH r H) as (pre & -> & Hr & Hfirst).
      exists (c :: pre). repeat split; [assumption|].
      intros [|n] Hn; simpl; [exact E|]. apply Hfirst. simpl in Hn. lia.
Qed.

Lemma strstr_none needle : forall hay,
  strstr hay needle = None ->
  forall n, is_prefix needle (skipn n hay) = false.
Proof.
  induction hay as [|c hay IH]; simpl.
  - destruct (is_prefix needle []) eqn:E; [discriminate|].
    intros _ n. now rewrite skipn_nil.
  - destruct (is_prefix needle (c :: hay)) eqn:E; [discriminate|].
    intros H [|n]; simpl; [exact E | now apply IH].
Qed.

(** X2. keys_start returns the text that follows the first " keys " of the
    command, and NULL exactly when the command has no " keys ". *)
Theorem keys_start_spec : forall command,
  (forall keys, keys_start command = Some keys ->
     exists pre,
       chars command = pre ++ cstr " keys " ++ keys /\
       forall pre' post',
         chars command = pre' ++ cstr " keys " ++ post' ->
         (length pre <= length pre')%nat) /\
  (keys_start command = None <->
   forall pre post, chars command <> pre ++ cstr " keys " ++ post).
Proof.
  intros command. unfold keys_start. split.
  - intros keys H.
    destruct (strstr (chars command) (cstr " keys ")) as [r|] eqn:E;
      [|discriminate].
    injection H as <-.
    destruct (strstr_some _ _ _ E) as (pre & Hc & Hr & Hfirst).
    apply is_prefix_spec in Hr. destruct Hr as [t ->].
    exists pre. split.
    + rewrite Hc. reflexivity.
    + intros pre' post' Hc'.
      destruct (Nat.le_gt_cases (length pre) (length pre')) as [|Hlt];
        [assumption|].
      specialize (Hfirst _ Hlt). rewrite Hc' in Hfirst.
      rewrite skipn_app, skipn_all, Nat.sub_diag in Hfirst. simpl in Hfirst.
      discriminate.
  - destruct (strstr (chars command) (cstr " keys ")) as [r|] eqn:E.
    + split; [discriminate|]. intros H. exfalso.
      destruct (strstr_some _ _ _ E) as (pre & Hc & Hr & _).
      apply is_prefix_spec in Hr. destruct Hr as [t ->].
      now apply (H pre t).
    + split; [|reflexivity]. intros _ pre post Hc.
      pose proof (strstr_none _ _ E (length pre)) as Hn.
      rewrite Hc, skipn_app, skipn_all, Nat.sub_diag in Hn. simpl in Hn.
      discriminate.
Qed.

(** ** ldb_command_normalize: the buffer *)

Lemma appended_length sup s : (length (appended sup s) <= length s)%nat.
Proof.
  revert sup. induction s as [|c r IH]; intros sup; simpl; [lia|].
  destruct (c >? SPACE); [specialize (IH false); simpl; lia|].
  destruct sup; [specialize (IH true) | specialize (IH true); simpl]; lia.
Qed.

(** X3. ldb_command_normalize never fills more of its buffer than it has
    read of the text: after any number n of characters the buffer holds
    at most n, so the strlen(text) + 1 bytes it allocates always hold the
    result and its terminator. *)
Theorem ldb_command_normalize_fits_buffer : forall text n,
  (length (fold_left normalize_step (firstn n (chars text)) []) <= n)%nat /\
  (length (ldb_command_normalize text) <= strlen_nat text)%nat.
Proof.
  intros text n. split.
  - rewrite fold_appended. change (suppress []) with true. simpl app.
    pose proof (appended_length true (firstn n (chars text))) as H.
    rewrite length_firstn in H. lia.
  - unfold ldb_command_normalize. rewrite fold_appended.
    change (suppress []) with true. simpl app.
    pose proof (appended_length true (firstn (strlen_nat text) text)) as H.
    rewrite length_firstn in H.
    assert (Ht : forall l, (length (right_trim l) <= length l)%nat).
    { intros l. unfold right_trim.
      destruct l as [|a l0]; [simpl; lia|].
      destruct (exists_last (l:=a :: l0)) as (l' & x & ->); [discriminate|].
      destruct (negb (Nat.eqb (length (l' ++ [x])) 0)); [|lia].
      destruct (last (l' ++ [x]) 0 =? SPACE); [|lia].
      rewrite removelast_last, length_app. simpl. lia. }
    specialize (Ht (appended true (firstn (strlen_nat text) text))). lia.
Qed.

(** ** stricmp *)

Lemma chars_cons c r : chars (c :: r) = if c =? 0 then [] else c :: chars r.
Proof. unfold chars. simpl. destruct (c =? 0); reflexivity. Qed.

Lemma tolower_zero c : tolower c = 0 <-> c = 0.
Proof. unfold tolower. destruct ((65 <=? c) && (c <=? 90)) eqn:E; lia. Qed.

(** X4. stricmp answers true exactly when the two strings are equal once
    both are put in lower case: same length, and the same letters up to
    case. *)
Theorem stricmp_spec : forall a b,
  stricmp a b = true <-> map tolower (chars a) = map tolower (chars b).
Proof.
  induction a as [|ca a IH]; intros [|cb b].
  - split; reflexivity.
  - change (stricmp [] (cb :: b)) with (0 =? cb).
    rewrite (chars_cons cb). destruct (cb =? 0) eqn:E.
    + replace (0 =? cb) with true by lia. split; reflexivity.
    + replace (0 =? cb) with false by lia. split; discriminate.
  - change (stricmp (ca :: a) []) with (ca =? 0).
    rewrite (chars_cons ca). destruct (ca =? 0) eqn:E.
    + split; reflexivity.
    + split; discriminate.
  - change (stricmp (ca :: a) (cb :: b))
      with (if negb (ca =? 0) && negb (cb =? 0)
            then if negb (tolower ca =? tolower cb) then false
                 else stricmp a b
            else ca =? cb).
    rewrite (chars_cons ca), (chars_cons cb).
    destruct (ca =? 0) eqn:Ea, (cb =? 0) eqn:Eb; simpl negb; simpl andb;
      cbv iota.
    + replace (ca =? cb) with true by lia. split; reflexivity.
    + replace (ca =? cb) with false by lia. split; discriminate.
    + replace (ca =? cb) with false by lia. split; discriminate.
    + destruct (tolower ca =? tolower cb) eqn:Et; simpl negb; cbv iota;
        simpl map.
      * rewrite IH. apply Z.eqb_eq in Et. rewrite Et. split.
        -- intros ->. reflexivity.
        -- intros H. now injection H.
      * split; [discriminate|]. intros H. injection H as H _. lia.
Qed.

(** ** print_record *)

Lemma hex_digit_lower d : 0 <= d < 16 -> lower_hex (hex_digit d) = true.
Proof. intros H. unfold lower_hex, hex_digit. destruct (d <? 10) eqn:E; lia. Qed.

Lemma printf_02x_lower b :
  Forall (fun h => lower_hex h = true) (printf_02x b).
Proof.
  unfold printf_02x, uint8.
  assert (0 <= b mod 256 < 256) by (apply Z.mod_pos_bound; lia).
  repeat constructor; apply hex_digit_lower.
  - split; [apply Z.div_pos; lia | apply Z.div_lt_upper_bound; lia].
  - apply Z.mod_pos_bound. lia.
Qed.

Lemma print_hex_loop_lower n : forall ptr from out,
  print_hex_loop n ptr from = Ok out ->
  length out = (2 * n)%nat /\ Forall (fun h => lower_hex h = true) out.
Proof.
  induction n as [|n IH]; intros ptr from out; simpl.
  - intros [= <-]. split; [reflexivity | constructor].
  - unfold rbind. destruct (load ptr from) as [b| |]; try discriminate.
    destruct (print_hex_loop n ptr (from + 1)) as [rest| |] eqn:E;
      try discriminate.
    intros [= <-]. destruct (IH _ _ _ E) as [Hl Hall]. split.
    + simpl. rewrite Hl. lia.
    + apply (proj2 (Forall_app _ (printf_02x b) rest)).
      split; [apply printf_02x_lower | exact Hall].
Qed.

Lemma print_line_ends (a c d e : list Z) (b : Z) :
  last (a ++ [b] ++ c ++ d ++ e ++ [10]) 0 = 10.
Proof. rewrite !app_assoc. apply last_last. Qed.

(** X5. Whatever print_record prints starts with the key as 2 * keyln
    lower-case hex digits, which valid_hex_ln accepts as they are, followed
    by a space; the line ends with a newline.  It prints only for a key
    length that is not negative. *)
Theorem print_record_key_is_valid_hex : forall ptr keyln hex out,
  print_record ptr keyln hex = Ok out ->
  0 <= keyln /\
  valid_hex_ln out (2 * keyln) = true /\
  nth (Z.to_nat (2 * keyln)) out 0 = SPACE /\
  last out 0 = 10.
Proof.
  intros ptr keyln hex out. unfold print_record, rbind, guard.
  destruct (print_hex_loop (Z.to_nat keyln) ptr 0) as [key| |] eqn:Ek;
    try discriminate.
  destruct (print_hex_loop (Z.to_nat hex) ptr keyln) as [data| |] eqn:Ed;
    try discriminate.
  destruct ((0 <=? keyln + hex) && (keyln + hex <=? len ptr)) eqn:Eg;
    try discriminate.
  intros [= <-].
  assert (Hpos : 0 <= keyln).
  { destruct (Z.le_gt_cases 0 keyln) as [|Hneg]; [assumption|]. exfalso.
    assert (Hh : (0 < Z.to_nat hex)%nat) by lia.
    destruct (Z.to_nat hex) as [|n]; [lia|]. simpl in Ed.
    unfold rbind, load in Ed.
    replace ((0 <=? keyln) && (keyln <? len ptr)) with false in Ed by lia.
    discriminate. }
  destruct (print_hex_loop_lower _ _ _ _ Ek) as [Hl Hall].
  assert (Hn : Z.to_nat (2 * keyln) = length key) by lia.
  split; [assumption|]. split; [|split].
  - unfold valid_hex_ln. apply valid_hex_loop_spec. rewrite Hn. split.
    + rewrite length_app. lia.
    + rewrite firstn_app, firstn_all, Nat.sub_diag, firstn_O, app_nil_r.
      exact Hall.
  - rewrite Hn, app_nth2, Nat.sub_diag by lia. reflexivity.
  - apply print_line_ends.
Qed.

Lemma print_record_key_is_valid_hex_witness :
  valid_hex_ln (cstr "aabbccdd 0102 hi" ++ [10]) (2 * 4) = true.
Proof.
  apply (print_record_key_is_valid_hex
           [170; 187; 204; 221; 1; 2; 104; 105] 4 2
           (cstr "aabbccdd 0102 hi" ++ [10])
           ltac:(vm_compute; reflexivity)).
Defined.

(** ** The further properties in the concrete environment *)

Notation "'shell_execute' c" :=
  (execute Fixture.ldb_extract_word Fixture.atoi Fixture.ldb_valid_table
     Fixture.stored_cfg Fixture.ldb_hex_to_bin Fixture.uint16_write
     Fixture.ldb_collate_cmp Fixture.ldb_word_count Fixture.ldb_commands
     Fixture.ldb_valid_hex Fixture.ldb_valid_ascii Fixture.strtol16
     Fixture.ldb_root Fixture.LDB_MAX_PATH Fixture.ldb_valid_name
     Fixture.ldb_create_database Fixture.ldb_create_table
     Fixture.ldb_split_string Fixture.opendir Fixture.ldb_dir_exists
     Fixture.commandtype_value Fixture.mz_path_size (cstr c))
  (at level 10, c at level 9, only parsing).

Notation "'shell_main' t l" :=
  (main Fixture.ldb_extract_word Fixture.atoi Fixture.ldb_valid_table
     Fixture.stored_cfg Fixture.ldb_hex_to_bin Fixture.uint16_write
     Fixture.ldb_collate_cmp Fixture.ldb_word_count Fixture.ldb_commands
     Fixture.ldb_valid_hex Fixture.ldb_valid_ascii Fixture.strtol16
     Fixture.ldb_root Fixture.LDB_MAX_PATH Fixture.ldb_valid_name
     Fixture.ldb_create_database Fixture.ldb_create_table
     Fixture.ldb_split_string Fixture.opendir Fixture.ldb_dir_exists
     Fixture.commandtype_value Fixture.ldb_trim Fixture.ldb_check_root
     Fixture.mz_path_size t l)
  (at level 10, t at level 9, l at level 9, only parsing).


Lemma delete_rejects_empty_key_list_witness :
  run_delete "delete from db/t max 10 keys , ,"
  = Ok [EvLock (cstr "db/t"); EvReadCfg (cstr "db/t"); EvReadCfg (cstr "db/t");
        EvPrintf (E076_keys 4); EvUnlock (cstr "db/t")].
Proof.
  apply (delete_rejects_empty_key_list Fixture.ldb_extract_word Fixture.atoi
           Fixture.ldb_valid_table Fixture.stored_cfg Fixture.ldb_hex_to_bin
           Fixture.ldb_collate_cmp
           (cstr "delete from db/t max 10 keys , ,") (cstr ", ,")).
  - vm_compute. reflexivity.
  - vm_compute. discriminate.
  - vm_compute. reflexivity.
  - constructor; [now right|]. constructor; [now left|].
    constructor; [now right|]. constructor.
Defined.

Lemma delete_without_keys_word_is_undefined_witness :
  run_delete "delete from db/t max 10" = Undefined.
Proof.
  apply (delete_without_keys_word_is_undefined Fixture.ldb_extract_word
           Fixture.atoi Fixture.ldb_valid_table Fixture.stored_cfg
           Fixture.ldb_hex_to_bin Fixture.ldb_collate_cmp
           (cstr "delete from db/t max 10")).
  - vm_compute. reflexivity.
  - vm_compute. reflexivity.
Defined.


Lemma invalid_table_only_unlocks_witness :
  run_collate "collate db/none max 10" = Ok [EvUnlock (cstr "db/none")] /\
  run_delete "delete from db/none max 10 keys aabbccdd"
  = Ok [EvUnlock (cstr "db/none")] /\
  run (ldb_command_unlink_list Fixture.ldb_extract_word
         Fixture.ldb_valid_table Fixture.stored_cfg Fixture.ldb_hex_to_bin
         (cstr "unlink list from db/none key aabbccdd")) = Ok [].
Proof.
  destruct (invalid_table_only_unlocks Fixture.ldb_extract_word Fixture.atoi
              Fixture.ldb_valid_table Fixture.stored_cfg
              Fixture.ldb_hex_to_bin Fixture.uint16_write
              Fixture.ldb_collate_cmp) as (Hcollate & Hdelete & Hunlink).
  split; [|split].
  - apply (Hcollate (cstr "collate db/none max 10")).
    vm_compute. reflexivity.
  - apply (Hdelete (cstr "delete from db/none max 10 keys aabbccdd")).
    vm_compute. reflexivity.
  - apply (Hunlink (cstr "unlink list from db/none key aabbccdd")).
    vm_compute. reflexivity.
Defined.

Lemma ldb_syntax_check_first_match_witness :
  exists n known,
    nth_error Fixture.ldb_commands n = Some known /\
    matches Fixture.ldb_extract_word Fixture.ldb_word_count
      Fixture.ldb_valid_hex Fixture.ldb_valid_ascii
      (cstr "select from db/t key aabbccdd ascii") known = true /\
    (forall m earlier, (m < n)%nat ->
       nth_error Fixture.ldb_commands m = Some earlier ->
       matches Fixture.ldb_extract_word Fixture.ldb_word_count
         Fixture.ldb_valid_hex Fixture.ldb_valid_ascii
         (cstr "select from db/t key aabbccdd ascii") earlier = false) /\
    snd (ldb_syntax_check Fixture.ldb_extract_word Fixture.ldb_word_count
           Fixture.ldb_commands Fixture.ldb_valid_hex Fixture.ldb_valid_ascii
           (cstr "select from db/t key aabbccdd ascii") 0 0)
    = (Z.of_nat n, Fixture.ldb_word_count known).
Proof.
  apply (proj2 (ldb_syntax_check_first_match Fixture.ldb_extract_word
                  Fixture.ldb_word_count Fixture.ldb_commands
                  Fixture.ldb_valid_hex Fixture.ldb_valid_ascii
                  (cstr "select from db/t key aabbccdd ascii") 0 0)).
  vm_compute. reflexivity.
Defined.

Lemma execute_blank_line_does_nothing_witness :
  shell_execute "   " [ShPrompt] = Ok (true, [ShPrompt]).
Proof.
  apply (execute_blank_line_does_nothing Fixture.ldb_extract_word
           Fixture.atoi Fixture.ldb_valid_table Fixture.stored_cfg
           Fixture.ldb_hex_to_bin Fixture.uint16_write
           Fixture.ldb_collate_cmp Fixture.ldb_word_count
           Fixture.ldb_commands Fixture.ldb_valid_hex Fixture.ldb_valid_ascii
           Fixture.strtol16 Fixture.ldb_root Fixture.LDB_MAX_PATH
           Fixture.ldb_valid_name Fixture.ldb_create_database
           Fixture.ldb_create_table Fixture.ldb_split_string Fixture.opendir
           Fixture.ldb_dir_exists Fixture.commandtype_value
           Fixture.mz_path_size (cstr "   ") [ShPrompt]).
  vm_compute. reflexivity.
Defined.

Lemma execute_depends_on_words_only_witness :
  shell_execute "  select   from db/t key aabbccdd " [ShPrompt]
  = shell_execute "select from db/t key aabbccdd" [ShPrompt].
Proof.
  apply (execute_depends_on_words_only Fixture.ldb_extract_word
           Fixture.atoi Fixture.ldb_valid_table Fixture.stored_cfg
           Fixture.ldb_hex_to_bin Fixture.uint16_write
           Fixture.ldb_collate_cmp Fixture.ldb_word_count
           Fixture.ldb_commands Fixture.ldb_valid_hex Fixture.ldb_valid_ascii
           Fixture.strtol16 Fixture.ldb_root Fixture.LDB_MAX_PATH
           Fixture.ldb_valid_name Fixture.ldb_create_database
           Fixture.ldb_create_table Fixture.ldb_split_string Fixture.opendir
           Fixture.ldb_dir_exists Fixture.commandtype_value
           Fixture.mz_path_size
           (cstr "  select   from db/t key aabbccdd ")
           (cstr "select from db/t key aabbccdd")
           ltac:(vm_compute; reflexivity) [ShPrompt]).
Defined.

Lemma execute_unknown_command_is_syntax_error_witness :
  shell_execute "select db/t" [] = Ok (true, [ShPrint E066_syntax_error]).
Proof.
  apply (execute_unknown_command_is_syntax_error Fixture.ldb_extract_word
           Fixture.atoi Fixture.ldb_valid_table Fixture.stored_cfg
           Fixture.ldb_hex_to_bin Fixture.uint16_write
           Fixture.ldb_collate_cmp Fixture.ldb_word_count
           Fixture.ldb_commands Fixture.ldb_valid_hex Fixture.ldb_valid_ascii
           Fixture.strtol16 Fixture.ldb_root Fixture.LDB_MAX_PATH
           Fixture.ldb_valid_name Fixture.ldb_create_database
           Fixture.ldb_create_table Fixture.ldb_split_string Fixture.opendir
           Fixture.ldb_dir_exists Fixture.commandtype_value
           Fixture.mz_path_size (cstr "select db/t") []).
  - vm_compute. discriminate.
  - vm_compute. discriminate.
  - vm_compute. reflexivity.
Defined.

Lemma main_ends_at_quit_witness :
  shell_main true [line "version"; line "quit"; line "help"] []
  = shell_main true [line "version"; line "quit"] [].
Proof.
  apply (main_ends_at_quit Fixture.ldb_extract_word
           Fixture.atoi Fixture.ldb_valid_table Fixture.stored_cfg
           Fixture.ldb_hex_to_bin Fixture.uint16_write
           Fixture.ldb_collate_cmp Fixture.ldb_word_count
           Fixture.ldb_commands Fixture.ldb_valid_hex Fixture.ldb_valid_ascii
           Fixture.strtol16 Fixture.ldb_root Fixture.LDB_MAX_PATH
           Fixture.ldb_valid_name Fixture.ldb_create_database
           Fixture.ldb_create_table Fixture.ldb_split_string Fixture.opendir
           Fixture.ldb_dir_exists Fixture.commandtype_value Fixture.ldb_trim
           Fixture.ldb_check_root Fixture.mz_path_size
           [line "version"] (line "quit") [line "help"] []).
  vm_compute. reflexivity.
Defined.

Lemma main_returns_only_after_quit_witness :
  (Fixture.ldb_check_root = false /\ EXIT_SUCCESS = EXIT_FAILURE /\
   [ShWelcome; ShPrompt; ShVersion; ShPrompt] = []) \/
  (EXIT_SUCCESS = EXIT_SUCCESS /\
   exists q, In q [line "version"; line "quit"] /\
     split_words [] (chars (Fixture.ldb_trim q)) = [cstr "quit"]).
Proof.
  apply (main_returns_only_after_quit Fixture.ldb_extract_word
           Fixture.atoi Fixture.ldb_valid_table Fixture.stored_cfg
           Fixture.ldb_hex_to_bin Fixture.uint16_write
           Fixture.ldb_collate_cmp Fixture.ldb_word_count
           Fixture.ldb_commands Fixture.ldb_valid_hex Fixture.ldb_valid_ascii
           Fixture.strtol16 Fixture.ldb_root Fixture.LDB_MAX_PATH
           Fixture.ldb_valid_name Fixture.ldb_create_database
           Fixture.ldb_create_table Fixture.ldb_split_string Fixture.opendir
           Fixture.ldb_dir_exists Fixture.commandtype_value Fixture.ldb_trim
           Fixture.ldb_check_root Fixture.mz_path_size
           [line "version"; line "quit"] [] EXIT_SUCCESS
           [ShWelcome; ShPrompt; ShVersion; ShPrompt]).
  vm_compute. reflexivity.
Defined.

Lemma show_tables_lists_directories_witness :
  ldb_command_show_tables Fixture.ldb_extract_word Fixture.ldb_root
    Fixture.LDB_MAX_PATH Fixture.ldb_valid_name Fixture.opendir
    Fixture.ldb_dir_exists (cstr "show tables from db") []
  = Ok (tt, [ShLine (cstr "t"); ShLine (cstr "fixed"); ShLine (cstr "wide")]).
Proof.
  apply (show_tables_lists_directories Fixture.ldb_extract_word
           Fixture.ldb_root Fixture.LDB_MAX_PATH Fixture.ldb_valid_name
           Fixture.opendir Fixture.ldb_dir_exists
           (cstr "show tables from db")
           (map cstr [ "."; ".."; "t"; ".t.tmp"; "fixed"; "notes.txt"; "wide" ]%string)
           []).
  - vm_compute. reflexivity.
  - vm_compute. reflexivity.
  - vm_compute. reflexivity.
  - intros d Hin _. apply Z.leb_le.
    simpl in Hin.
    repeat (destruct Hin as [<-|Hin]; [vm_compute; reflexivity|]).
    contradiction.
Defined.


Lemma keys_start_spec_witness :
  exists pre,
    chars (cstr "delete from db/t max 10 keys aabbccdd, keys ")
    = pre ++ cstr " keys " ++ cstr "aabbccdd, keys " /\
    forall pre' post',
      chars (cstr "delete from db/t max 10 keys aabbccdd, keys ")
      = pre' ++ cstr " keys " ++ post' ->
      (length pre <= length pre')%nat.
Proof.
  apply (proj1 (keys_start_spec
                  (cstr "delete from db/t max 10 keys aabbccdd, keys "))
           (cstr "aabbccdd, keys ")).
  vm_compute. reflexivity.
Defined.

Lemma fetch_keys_reads_key_list_witness :
  fetch_keys Fixture.ldb_hex_to_bin
    (Some (cstr "aabbccdd,aa000001,aaffffff")) 4
  = Ok ([170; 187; 204; 221; 170; 0; 0; 1; 170; 255; 255; 255; 0], 12).
Proof.
  refine (fetch_keys_reads_key_list Fixture.ldb_hex_to_bin 4 _ _ _
            (cstr "aabbccdd") [cstr "aa000001"; cstr "aaffffff"] _ _).
  - lia.
  - intros key _. reflexivity.
  - intros key more Hlen. unfold len in Hlen.
    do 8 (destruct key as [|? key]; [cbn [length] in Hlen; lia|]).
    destruct key; [reflexivity | cbn [length] in Hlen; lia].
  - repeat constructor.
  - repeat constructor.
Defined.

Lemma show_databases_lists_directories_witness :
  ldb_command_show_databases Fixture.ldb_root Fixture.LDB_MAX_PATH
    Fixture.opendir Fixture.ldb_dir_exists []
  = Ok (tt, [ShLine (cstr "db")]).
Proof.
  apply (proj2 (show_databases_lists_directories Fixture.ldb_root
                  Fixture.LDB_MAX_PATH Fixture.opendir Fixture.ldb_dir_exists
                  [])
           (map cstr [ "."; ".."; "db"; "ldb.lock" ]%string)).
  - vm_compute. reflexivity.
  - intros d Hin _. apply Z.leb_le.
    simpl in Hin.
    repeat (destruct Hin as [<-|Hin]; [vm_compute; reflexivity|]).
    contradiction.
Defined.

Lemma dump_sector_is_clamped_witness :
  exists sectorn,
    ldb_command_dump Fixture.ldb_extract_word Fixture.atoi
      Fixture.ldb_valid_table Fixture.stored_cfg Fixture.strtol16
      (cstr "dump db/t hex 4 sector 1ff") []
    = Ok (tt, [ShTable (EvReadCfg (cstr "db/t"));
               ShDump (mk_table (cstr "db/t") 4 0 false) 4 sectorn]) /\
    sectorn = -1.
Proof.
  destruct (dump_sector_is_clamped Fixture.ldb_extract_word Fixture.atoi
              Fixture.ldb_valid_table Fixture.stored_cfg Fixture.strtol16
              (cstr "dump db/t hex 4 sector 1ff") [])
    as (sectorn & Hrun & _ & _ & Hgiven).
  exists sectorn. split; [exact Hrun|].
  apply Hgiven.
  - vm_compute. discriminate.
  - vm_compute. intros [_ H]. now apply H.
Defined.
